(** * go-scripts: the Go toolchain update pipeline (package gotools, cmd/updatego)

    A shallow embedding of the version resolver, the downloader, the
    installer and the orchestrator, and the properties of the
    specification that are settled on it.

    Go values are modelled as follows.
    - [string] is Go's byte string; [int] is the 64-bit [int] of the
      linux-amd64 target, held in [Z] with its range written out.
    - A Go result pair [(v, err)] is a Rocq pair whose second component is
      [option error]; [None] is [nil].
    - The file system is a finite map from cleaned absolute paths to nodes.
    - The retry poller of k8s.io/apimachinery runs its condition on the
      attempts that fit into the time budget; the list of attempts is the
      environment's answer to each of them. *)

From Stdlib Require Import ZArith String Ascii List Bool Lia.
From stdpp Require Import gmap strings list.

Open Scope string_scope.
Open Scope list_scope.
Open Scope Z_scope.

(** ** Errors *)

(** [fmt.Errorf] without a wrapped cause is [ErrNew]; with a trailing
    [%w] it is [ErrWrap], whose message is the formatted text before the
    cause.  The other constructors are the library errors the pipeline
    meets. *)
Inductive error : Type :=
| ErrNew (msg : string)
| ErrWrap (msg : string) (cause : error)
| ErrSyntax (fn input : string)      (* strconv.ErrSyntax in a *NumError *)
| ErrRange (fn input : string)       (* strconv.ErrRange in a *NumError *)
| ErrStatus (code : Z)               (* "unexpected status code: %d" *)
| ErrTransport (msg : string)        (* error of http.Client.Do *)
| ErrRead (msg : string)             (* error of reading a response body *)
| ErrDecode (msg : string)           (* error of json.Decoder.Decode *)
| ErrPath (op path reason : string)  (* *os.PathError, *os.LinkError *)
| ErrExit (code : Z)                 (* *exec.ExitError *)
| ErrDeadlineExceeded                (* context.DeadlineExceeded *)
| ErrCanceled.                       (* context.Canceled *)

Definition is_nil (e : option error) : bool :=
  match e with None => true | Some _ => false end.

(** ** package strings *)

Module GoStrings.

(** [strings.HasPrefix(s, prefix)]. *)
Fixpoint HasPrefix (s p : string) : bool :=
  match p, s with
  | EmptyString, _ => true
  | String _ _, EmptyString => false
  | String b p', String a s' => Ascii.eqb a b && HasPrefix s' p'
  end.

(** [strings.TrimPrefix(s, prefix)]: [s] without the prefix when it has
    it, [s] unchanged otherwise. *)
Fixpoint drop_bytes (n : nat) (s : string) : string :=
  match n, s with
  | O, _ => s
  | S _, EmptyString => EmptyString
  | S n', String _ s' => drop_bytes n' s'
  end.

Definition TrimPrefix (s p : string) : string :=
  if HasPrefix s p then drop_bytes (String.length p) s else s.

(** [strings.Split(s, sep)] for a one-byte separator: every occurrence
    splits, so the result has one more element than there are
    separators, and the empty string gives one empty element. *)
Fixpoint Split (s : string) (sep : ascii) : list string :=
  match s with
  | EmptyString => [EmptyString]
  | String c rest =>
      if Ascii.eqb c sep then EmptyString :: Split rest sep
      else match Split rest sep with
           | [] => [String c EmptyString]
           | h :: t => String c h :: t
           end
  end.

(** [unicode.IsSpace] on the bytes of an ASCII text: tab, line feed,
    vertical tab, form feed, carriage return and space. *)
Definition isSpace (c : ascii) : bool :=
  let n := nat_of_ascii c in
  ((9 <=? n)%nat && (n <=? 13)%nat) || (n =? 32)%nat.

(** [strings.Fields(s)]: the maximal runs of non-space bytes, in
    order.  [cur] is the run being read, reversed. *)
Fixpoint fields_go (s : string) (cur : option string) : list string :=
  match s with
  | EmptyString =>
      match cur with None => [] | Some w => [w] end
  | String c rest =>
      if isSpace c then
        match cur with
        | None => fields_go rest None
        | Some w => w :: fields_go rest None
        end
      else
        match cur with
        | None => fields_go rest (Some (String c EmptyString))
        | Some w => fields_go rest (Some (w +:+ String c EmptyString))
        end
  end.

Definition Fields (s : string) : list string := fields_go s None.

(** [strings.TrimSpace(s)]: [s] without its leading and trailing
    white space. *)
Fixpoint trim_left (s : string) : string :=
  match s with
  | EmptyString => EmptyString
  | String c rest => if isSpace c then trim_left rest else s
  end.

Fixpoint trim_right (s : string) : string :=
  match s with
  | EmptyString => EmptyString
  | String c rest =>
      match trim_right rest with
      | EmptyString => if isSpace c then EmptyString else String c EmptyString
      | r => String c r
      end
  end.

Definition TrimSpace (s : string) : string := trim_right (trim_left s).

End GoStrings.

(** ** package strconv *)

Module GoStrconv.

Definition int_min : Z := - 2 ^ 63.
Definition int_max : Z := 2 ^ 63 - 1.
Definition uint_max : Z := 2 ^ 64 - 1.

(** What reading the digits of a number gives. *)
Inductive Scan : Type :=
| ScanValue (n : Z)
| ScanSyntax
| ScanRange.

(** The loop of [strconv.ParseUint(s, 10, 64)]: the decimal digits of
    [s] are read from the left onto [n]; the first byte that is no
    digit is a syntax error, and a value that leaves 64 bits is a
    range error as soon as it is met. *)
Fixpoint digits (s : string) (n : Z) : Scan :=
  match s with
  | EmptyString => ScanValue n
  | String c rest =>
      let d := Z.of_nat (nat_of_ascii c) - 48 in
      if (0 <=? d) && (d <=? 9) then
        if n >=? uint_max / 10 + 1 then ScanRange
        else if n * 10 + d >? uint_max then ScanRange
        else digits rest (n * 10 + d)
      else ScanSyntax
  end.

(** [strconv.Atoi(s)]: an optional sign, then at least one decimal
    digit and nothing else; the value must fit the 64-bit [int]. *)
Definition Atoi (s : string) : Z * option error :=
  let '(neg, body) :=
    match s with
    | String "-" r => (true, r)
    | String "+" r => (false, r)
    | _ => (false, s)
    end in
  match body with
  | EmptyString => (0, Some (ErrSyntax "Atoi" s))
  | _ =>
      match digits body 0 with
      | ScanSyntax => (0, Some (ErrSyntax "Atoi" s))
      | ScanRange =>
          ((if neg then int_min else int_max), Some (ErrRange "Atoi" s))
      | ScanValue un =>
          if negb neg && (un >=? 2 ^ 63) then (int_max, Some (ErrRange "Atoi" s))
          else if neg && (un >? 2 ^ 63) then (int_min, Some (ErrRange "Atoi" s))
          else ((if neg then - un else un), None)
      end
  end.

End GoStrconv.

(** ** version.go *)

Import GoStrings GoStrconv.

(** [GoRelease]: one entry of the release feed. *)
Record GoRelease : Type := mkGoRelease {
  Version : string;
  Stable : bool
}.

(** [installedSplit[i]] after the length check; the default is never
    reached there. *)
Definition at_index (l : list string) (i : nat) : string := nth i l EmptyString.

(** [Checker.NeedsUpdate(installed, latest)]. *)
Definition NeedsUpdate (installed latest : string) : bool * option error :=
  if String.eqb installed "" then (true, None) else
  let installedSplit := Split installed "." in
  let latestSplit := Split latest "." in
  if (length installedSplit <? 3)%nat || (length latestSplit <? 3)%nat then
    (false, Some (ErrNew "invalid version format: versions must be in the format X.Y.Z"))
  else
  match Atoi (at_index installedSplit 0) with
  | (_, Some err) => (false, Some (ErrWrap ("invalid major version in " +:+ installed +:+ ": ") err))
  | (majorInstalled, None) =>
  match Atoi (at_index latestSplit 0) with
  | (_, Some err) => (false, Some (ErrWrap ("invalid major version in " +:+ latest +:+ ": ") err))
  | (majorLatest, None) =>
  if majorInstalled <? majorLatest then (true, None)
  else if majorInstalled >? majorLatest then (false, None)
  else
  match Atoi (at_index installedSplit 1) with
  | (_, Some err) => (false, Some (ErrWrap ("invalid minor version in " +:+ installed +:+ ": ") err))
  | (minorInstalled, None) =>
  match Atoi (at_index latestSplit 1) with
  | (_, Some err) => (false, Some (ErrWrap ("invalid minor version in " +:+ latest +:+ ": ") err))
  | (minorLatest, None) =>
  if minorInstalled <? minorLatest then (true, None)
  else if minorInstalled >? minorLatest then (false, None)
  else
  match Atoi (at_index installedSplit 2) with
  | (_, Some err) => (false, Some (ErrWrap ("invalid patch version in " +:+ installed +:+ ": ") err))
  | (patch1, None) =>
  match Atoi (at_index latestSplit 2) with
  | (_, Some err) => (false, Some (ErrWrap ("invalid patch version in " +:+ latest +:+ ": ") err))
  | (patch2, None) =>
  if patch1 <? patch2 then (true, None)
  else if patch1 >? patch2 then (false, None)
  else (false, None)
  end end end end end end.

(** ** package path/filepath (Unix) *)

Module GoFilepath.

Fixpoint join_with (sep : string) (l : list string) : string :=
  match l with
  | [] => EmptyString
  | [x] => x
  | x :: rest => x +:+ sep +:+ join_with sep rest
  end.

Definition IsAbs (path : string) : bool := HasPrefix path "/".

(** One path element met by [Clean]; [out] holds the elements kept so
    far, the last one first.  Empty elements and [.] are dropped; [..]
    removes the element before it, is dropped at the root, and is kept
    at the start of a relative path. *)
Definition clean_step (rooted : bool) (out : list string) (elem : string) : list string :=
  if String.eqb elem "" || String.eqb elem "." then out
  else if String.eqb elem ".." then
    match out with
    | top :: below => if String.eqb top ".." then elem :: out else below
    | [] => if rooted then [] else [elem]
    end
  else elem :: out.

(** [filepath.Clean(path)]. *)
Definition Clean (path : string) : string :=
  if String.eqb path "" then "." else
  let rooted := IsAbs path in
  let out := fold_left (clean_step rooted) (Split path "/") [] in
  let body := join_with "/" (rev out) in
  if rooted then "/" +:+ body
  else if String.eqb body "" then "." else body.

(** [filepath.Join(elem...)]: the elements from the first non-empty one
    on, joined by the separator and cleaned; the empty string when all
    are empty. *)
Fixpoint Join (elem : list string) : string :=
  match elem with
  | [] => EmptyString
  | e :: rest =>
      if String.eqb e "" then Join rest else Clean (join_with "/" elem)
  end.

(** The bytes of [path] up to and including its last separator. *)
Fixpoint upto_last_sep (path : string) : string :=
  match path with
  | EmptyString => EmptyString
  | String c rest =>
      match upto_last_sep rest with
      | EmptyString => if Ascii.eqb c "/" then String c EmptyString else EmptyString
      | r => String c r
      end
  end.

(** [filepath.Dir(path)]. *)
Definition Dir (path : string) : string := Clean (upto_last_sep path).

End GoFilepath.

Import GoFilepath.

(** ** The retry poller *)

(** [wait.PollUntilContextTimeout(ctx, interval, timeout, immediate, cond)]:
    the condition is run once per attempt and polling stops at the first
    attempt that reports done or returns an error, with that error.  One
    element of [attempts] is what the environment answers to one attempt,
    and the list holds the attempts that fit into the time budget (at
    least one, as the first attempt is immediate); when they are used up
    the poller returns the context's error [ctxErr]. *)
Fixpoint poll {St A : Type} (cond : A -> St -> (bool * option error) * St)
    (ctxErr : error) (attempts : list A) (st : St) : option error * St :=
  match attempts with
  | [] => (Some ctxErr, st)
  | a :: rest =>
      let '((ok, err), st') := cond a st in
      match err with
      | Some e => (Some e, st')
      | None => if ok then (None, st') else poll cond ctxErr rest st'
      end
  end.

(** ** net/http as seen by the pipeline *)

(** A response body: the handle it is known by, the bytes a reader gets
    from it, and the error that ends the reading instead of end-of-file,
    if any. *)
Record ResponseBody : Type := mkBody {
  body_id : nat;
  body_bytes : list Byte.byte;
  body_err : option error
}.

(** The outcome of [client.Do(req)]. *)
Inductive RoundTrip : Type :=
| DoFails (err : error)
| DoReturns (StatusCode : Z) (Body : ResponseBody).

Definition StatusOK : Z := 200.

(** ** client.go *)

(** The handles on which [Close] was called, latest first. *)
Definition CloseLog : Type := list nat.

Definition times_closed (b : ResponseBody) (log : CloseLog) : nat :=
  count_occ Nat.eq_dec log (body_id b).

(** [safeClose(body)]; [None] is the nil interface value. *)
Definition safeClose (body : option ResponseBody) (log : CloseLog) : CloseLog :=
  match body with
  | Some b => body_id b :: log
  | None => log
  end.

(** ** version.go, the resolver *)

Section Resolver.

(** [json.NewDecoder(body).Decode(&releases)]. *)
Variable jsonDecode : ResponseBody -> list GoRelease * option error.

(** The variables the poll closure of [getReleasesWithRetry] writes. *)
Record FetchVars : Type := mkFetchVars {
  lastErrSeen : option error;
  body : option ResponseBody
}.

(** The closure passed to the poller in [getReleasesWithRetry]. *)
Definition releasesAttempt (rt : RoundTrip) (v : FetchVars)
    : (bool * option error) * FetchVars :=
  match rt with
  | DoFails err => ((false, None), mkFetchVars (Some err) (body v))
  | DoReturns code b =>
      if negb (code =? StatusOK) then
        ((false, None), mkFetchVars (Some (ErrStatus code)) (body v))
      else ((true, None), mkFetchVars (lastErrSeen v) (Some b))
  end.

(** [Checker.getReleasesWithRetry(ctx, req)].  The arguments of a
    deferred call are evaluated when the [defer] statement runs: the
    deferred [safeClose] gets the value [body] has there, which is nil,
    and runs with it when the function returns. *)
Definition getReleasesWithRetry (ctxErr : error) (attempts : list RoundTrip)
    (log : CloseLog) : (list GoRelease * option error) * CloseLog :=
  let v0 := mkFetchVars None None in
  let deferred := body v0 in
  let '(timeoutErr, v) := poll releasesAttempt ctxErr attempts v0 in
  let result :=
    match timeoutErr with
    | Some terr =>
        match lastErrSeen v with
        | Some lerr => ([], Some (ErrWrap "failed to fetch version info: " lerr))
        | None => ([], Some (ErrWrap "failed to fetch version info: " terr))
        end
    | None =>
        match body v with
        | Some b =>
            match jsonDecode b with
            | (_, Some err) => ([], Some (ErrWrap "failed to parse version info: " err))
            | (releases, None) => (releases, None)
            end
        | None => ([], Some (ErrNew "invalid memory address or nil pointer dereference"))
        end
    end in
  (result, safeClose deferred log).

(** The loop of [GetLatestVersion] over the decoded feed. *)
Fixpoint firstStable (releases : list GoRelease) : string * option error :=
  match releases with
  | [] => ("", Some (ErrNew "no stable Go releases found"))
  | release :: rest =>
      if Stable release && HasPrefix (Version release) "go"
      then (TrimPrefix (Version release) "go", None)
      else firstStable rest
  end.

(** [Checker.GetLatestVersion(ctx)]; [reqErr] is the error of
    [http.NewRequestWithContext] for the configured feed URL. *)
Definition GetLatestVersion (reqErr : option error) (ctxErr : error)
    (attempts : list RoundTrip) (log : CloseLog)
    : (string * option error) * CloseLog :=
  match reqErr with
  | Some err => (("", Some (ErrWrap "failed to create request: " err)), log)
  | None =>
      match getReleasesWithRetry ctxErr attempts log with
      | ((_, Some err), log') =>
          (("", Some (ErrWrap "failed to fetch releases: " err)), log')
      | ((releases, None), log') => (firstStable releases, log')
      end
  end.

End Resolver.

(** [Checker.GetInstalledVersion()]; the argument is [runtime.Version()]. *)
Definition GetInstalledVersion (runtimeVersion : string) : string :=
  TrimPrefix runtimeVersion "go".

(** ** os.File as used by the downloader *)

(** An open file: its bytes and the offset of the next write. *)
Record File : Type := mkFile {
  data : list Byte.byte;
  pos : nat
}.

Definition zeros (n : nat) : list Byte.byte := repeat Byte.x00 n.

(** [f.Seek(offset, io.SeekStart)]. *)
Definition Seek (f : File) (offset : nat) : File := mkFile (data f) offset.

(** [f.Truncate(size)]: the file is cut or zero-extended to [size]; the
    offset does not move. *)
Definition Truncate (f : File) (size : nat) : File :=
  mkFile (firstn size (data f) ++ zeros (size - length (data f))) (pos f).

(** [f.Write(p)]: [p] replaces the bytes from the offset on, after a
    zero-filled gap when the offset is beyond the end, and the offset
    moves past it. *)
Definition Write (f : File) (p : list Byte.byte) : File :=
  mkFile (firstn (pos f) (data f) ++ zeros (pos f - length (data f))
            ++ p ++ skipn (pos f + length p) (data f))
         (pos f + length p).

(** ** download.go *)

(** What the environment answers to one attempt of the poll closure of
    [Download]: one of the calls before the request fails, or the request
    is sent. *)
Inductive DownloadAttempt : Type :=
| SeekFails (err : error)
| TruncateFails (err : error)
| NewRequestFails (err : error)
| Sent (rt : RoundTrip).

(** The variables the poll closure of [Download] writes. *)
Record DownloadVars : Type := mkDownloadVars {
  output : File;
  dl_lastSeenErr : option error
}.

(** [io.Copy(output, resp.Body)]: the bytes the body gives are written,
    and the error that ended the reading is returned.  A failing write
    leaves a prefix of the body in the file and an error as well, which
    is the same outcome for a shorter body. *)
Definition copyBody (f : File) (b : ResponseBody) : File * option error :=
  (Write f (body_bytes b), body_err b).

(** The closure passed to the poller in [Download].  The deferred
    [resp.Body.Close()] does not touch the file and is left out. *)
Definition downloadAttempt (a : DownloadAttempt) (v : DownloadVars)
    : (bool * option error) * DownloadVars :=
  match a with
  | SeekFails err =>
      ((false, Some (ErrWrap "failed to reset file position: " err)), v)
  | TruncateFails err =>
      let out := Seek (output v) 0 in
      ((false, Some (ErrWrap "failed to truncate file: " err)),
       mkDownloadVars out (dl_lastSeenErr v))
  | NewRequestFails err =>
      let out := Truncate (Seek (output v) 0) 0 in
      ((false, Some (ErrWrap "failed to create request: " err)),
       mkDownloadVars out (dl_lastSeenErr v))
  | Sent rt =>
      let out := Truncate (Seek (output v) 0) 0 in
      match rt with
      | DoFails err =>
          ((false, None),
           mkDownloadVars out (Some (ErrWrap "failed to perform HTTP request: " err)))
      | DoReturns code b =>
          if negb (code =? StatusOK) then
            ((false, None), mkDownloadVars out (Some (ErrStatus code)))
          else
            match copyBody out b with
            | (out', Some err) =>
                ((false, None),
                 mkDownloadVars out' (Some (ErrWrap "failed to copy response body: " err)))
            | (out', None) => ((true, None), mkDownloadVars out' (dl_lastSeenErr v))
            end
      end
  end.

Definition archiveName (version : string) : string :=
  "go" +:+ version +:+ ".linux-amd64.tar.gz".

(** [Downloader.Download(ctx, version)].  [mkdirTemp] is the result of
    [os.MkdirTemp], [createErr] the error of [os.Create].  The second
    component is the output file as the call leaves it, when it was
    created. *)
Definition Download (mkdirTemp : string * option error) (createErr : option error)
    (ctxErr : error) (attempts : list DownloadAttempt) (version : string)
    : (string * option error) * option File :=
  match mkdirTemp with
  | (_, Some err) =>
      (("", Some (ErrWrap "failed to create temporary directory: " err)), None)
  | (tmpDir, None) =>
      let filename := archiveName version in
      let outputPath := Join [tmpDir; filename] in
      match createErr with
      | Some err => (("", Some (ErrWrap "failed to create output file: " err)), None)
      | None =>
          let v0 := mkDownloadVars (mkFile [] 0) None in
          let '(err, v) := poll downloadAttempt ctxErr attempts v0 in
          match err with
          | Some perr =>
              match dl_lastSeenErr v with
              | Some lerr =>
                  (("", Some (ErrWrap "download failed with: " lerr)), Some (output v))
              | None =>
                  (("", Some (ErrWrap "download failed after retries: " perr)),
                   Some (output v))
              end
          | None => ((outputPath, None), Some (output v))
          end
      end
  end.

(** What the environment answers to one attempt of the poll closure of
    [fetchChecksum]. *)
Inductive ChecksumAttempt : Type :=
| ChecksumRequestFails (err : error)
| ChecksumSent (rt : RoundTrip).

Record ChecksumVars : Type := mkChecksumVars {
  checksumBytes : list Byte.byte;
  cs_lastSeenErr : option error
}.

(** The closure passed to the poller in [fetchChecksum]; [io.ReadAll]
    fails with the error that ends the body. *)
Definition checksumAttempt (a : ChecksumAttempt) (v : ChecksumVars)
    : (bool * option error) * ChecksumVars :=
  match a with
  | ChecksumRequestFails err =>
      ((false, Some (ErrWrap "failed to create checksum request: " err)), v)
  | ChecksumSent (DoFails err) =>
      ((false, None),
       mkChecksumVars (checksumBytes v)
         (Some (ErrWrap "failed to perform HTTP request: " err)))
  | ChecksumSent (DoReturns code b) =>
      if negb (code =? StatusOK) then
        ((false, None), mkChecksumVars (checksumBytes v) (Some (ErrStatus code)))
      else
        match body_err b with
        | Some err =>
            ((false, None),
             mkChecksumVars (checksumBytes v)
               (Some (ErrWrap "failed to read checksum response: " err)))
        | None => ((true, None), mkChecksumVars (body_bytes b) (cs_lastSeenErr v))
        end
  end.

(** The digest in a checksum body: its first field, or the trimmed body
    when it has no field. *)
Definition checksumToken (checksum : string) : string :=
  match Fields checksum with
  | part :: _ => part
  | [] => TrimSpace checksum
  end.

(** [Downloader.fetchChecksum(ctx, version)]. *)
Definition fetchChecksum (ctxErr : error) (attempts : list ChecksumAttempt)
    : string * option error :=
  let v0 := mkChecksumVars [] None in
  let '(err, v) := poll checksumAttempt ctxErr attempts v0 in
  match err with
  | Some perr =>
      match cs_lastSeenErr v with
      | Some lerr => ("", Some (ErrWrap "failed to fetch with: " lerr))
      | None => ("", Some (ErrWrap "failed to fetch checksum after retries: " perr))
      end
  | None => (checksumToken (string_of_list_byte (checksumBytes v)), None)
  end.

(** What opening and reading the local file gives. *)
Inductive FileRead : Type :=
| OpenFails (err : error)
| ReadFails (err : error)
| Content (bytes : list Byte.byte).

(** [hex.EncodeToString]: two lower-case hexadecimal digits per byte. *)
Definition hexDigit (n : N) : ascii :=
  if (n <? 10)%N then ascii_of_N (48 + n) else ascii_of_N (87 + n).

Fixpoint EncodeToString (src : list Byte.byte) : string :=
  match src with
  | [] => EmptyString
  | b :: rest =>
      let n := Byte.to_N b in
      String (hexDigit (n / 16)) (String (hexDigit (n mod 16)) (EncodeToString rest))
  end.

Section Checksum.

(** [sha256.Sum256], the digest of crypto/sha256. *)
Variable Sum256 : list Byte.byte -> list Byte.byte.

(** [Downloader.calculateChecksum(filePath)]. *)
Definition calculateChecksum (file : FileRead) : string * option error :=
  match file with
  | OpenFails err =>
      ("", Some (ErrWrap "failed to open file for checksum calculation: " err))
  | ReadFails err =>
      ("", Some (ErrWrap "failed to read file for checksum calculation: " err))
  | Content bytes => (EncodeToString (Sum256 bytes), None)
  end.

(** [Downloader.VerifyChecksum(ctx, filePath, version)]. *)
Definition VerifyChecksum (ctxErr : error) (attempts : list ChecksumAttempt)
    (file : FileRead) : bool * option error :=
  match fetchChecksum ctxErr attempts with
  | (_, Some err) => (false, Some (ErrWrap "failed to fetch checksum: " err))
  | (expectedSum, None) =>
      match calculateChecksum file with
      | (_, Some err) => (false, Some (ErrWrap "failed to calculate checksum: " err))
      | (actualSum, None) => (String.eqb expectedSum actualSum, None)
      end
  end.

End Checksum.

(** ** package os: the file system *)

(** A node of the file system.  The keys of the map are cleaned paths;
    the root and the working directory are directories that are always
    there.  Symbolic links are followed at the last element of a path
    only, and permissions are recorded but not enforced. *)
Inductive Node : Type :=
| DirNode (mode : Z)
| FileNode (mode : Z) (content : list Byte.byte)
| LinkNode (target : string).

Module GoOS.

Definition ENOENT : string := "no such file or directory".
Definition ENOTDIR : string := "not a directory".
Definition EEXIST : string := "file exists".
Definition EISDIR : string := "is a directory".
Definition ENOTEMPTY : string := "directory not empty".
Definition ELOOP : string := "too many levels of symbolic links".

(** [os.IsNotExist(err)]. *)
Definition IsNotExist (err : option error) : bool :=
  match err with
  | Some (ErrPath _ _ reason) => String.eqb reason ENOENT
  | _ => false
  end.

Definition always_there (p : string) : bool :=
  String.eqb p "/" || String.eqb p ".".

(** [k] is [root] or lies below it. *)
Definition within (root k : string) : bool :=
  String.eqb k root
  || (if String.eqb root "/" then HasPrefix k "/" else HasPrefix k (root +:+ "/")).

(** The path reached from [p] by following the links at its last
    element, at most [fuel] of them. *)
Fixpoint follow (fuel : nat) (fs : gmap string Node) (p : string) : option string :=
  match fs !! p with
  | Some (LinkNode t) =>
      match fuel with
      | O => None
      | S fuel' => follow fuel' fs (if IsAbs t then Clean t else Join [Dir p; t])
      end
  | _ => Some p
  end.

Definition maxSymlinks : nat := 40.

(** [os.Lstat(name)]. *)
Definition Lstat (fs : gmap string Node) (name : string) : option Node * option error :=
  let p := Clean name in
  if always_there p then (Some (DirNode 493), None) else
  match fs !! p with
  | Some n => (Some n, None)
  | None => (None, Some (ErrPath "lstat" name ENOENT))
  end.

(** [os.Stat(name)]. *)
Definition Stat (fs : gmap string Node) (name : string) : option Node * option error :=
  match follow maxSymlinks fs (Clean name) with
  | None => (None, Some (ErrPath "stat" name ELOOP))
  | Some q =>
      if always_there q then (Some (DirNode 493), None) else
      match fs !! q with
      | Some n => (Some n, None)
      | None => (None, Some (ErrPath "stat" name ENOENT))
      end
  end.

Definition is_dir (r : option Node * option error) : bool :=
  match r with
  | (Some (DirNode _), None) => true
  | _ => false
  end.

(** The paths of the elements of a cleaned path, the shortest first. *)
Fixpoint ancestors_from (rooted : bool) (cur : string) (elems : list string)
    : list string :=
  match elems with
  | [] => []
  | e :: rest =>
      if String.eqb e "" then ancestors_from rooted cur rest
      else
        let cur' :=
          if String.eqb cur "" then (if rooted then "/" +:+ e else e)
          else cur +:+ "/" +:+ e in
        cur' :: ancestors_from rooted cur' rest
  end.

Definition ancestors (p : string) : list string :=
  ancestors_from (IsAbs p) "" (Split p "/").

(** One directory of [MkdirAll]: kept when it is there, made when
    nothing is, an error when something else is. *)
Definition mkdir_step (name : string) (perm : Z)
    (acc : gmap string Node * option error) (p : string)
    : gmap string Node * option error :=
  match acc with
  | (fs, Some err) => (fs, Some err)
  | (fs, None) =>
      match Stat fs p with
      | (Some (DirNode _), _) => (fs, None)
      | (Some _, _) => (fs, Some (ErrPath "mkdir" name ENOTDIR))
      | (None, err) =>
          if IsNotExist err then
            match fs !! p with
            | None => (<[p := DirNode perm]> fs, None)
            | Some _ => (fs, Some (ErrPath "mkdir" name EEXIST))
            end
          else (fs, err)
      end
  end.

(** [os.MkdirAll(path, perm)]: the directory and the missing ones above
    it are made. *)
Definition MkdirAll (fs : gmap string Node) (path : string) (perm : Z)
    : gmap string Node * option error :=
  let p := Clean path in
  if always_there p then (fs, None)
  else fold_left (mkdir_step path perm) (ancestors p) (fs, None).

(** [os.RemoveAll(path)]: the node and all below it go; nothing to
    remove is no error. *)
Definition RemoveAll (fs : gmap string Node) (path : string)
    : gmap string Node * option error :=
  let p := Clean path in
  (filter (fun kv => within p kv.1 = false) fs, None).

Definition has_children (fs : gmap string Node) (p : string) : bool :=
  bool_decide (filter (fun kv : string * Node => HasPrefix kv.1 (p +:+ "/") = true) fs <> ∅).

(** [os.Remove(name)]: a file, a link or an empty directory. *)
Definition Remove (fs : gmap string Node) (name : string)
    : gmap string Node * option error :=
  let p := Clean name in
  match fs !! p with
  | None => (fs, Some (ErrPath "remove" name ENOENT))
  | Some (DirNode _) =>
      if has_children fs p then (fs, Some (ErrPath "remove" name ENOTEMPTY))
      else (delete p fs, None)
  | Some _ => (delete p fs, None)
  end.

(** [os.Symlink(oldname, newname)]: fails when [newname] is there or
    its directory is not. *)
Definition Symlink (fs : gmap string Node) (oldname newname : string)
    : gmap string Node * option error :=
  let p := Clean newname in
  match Lstat fs p with
  | (Some _, _) => (fs, Some (ErrPath "symlink" newname EEXIST))
  | (None, _) =>
      if is_dir (Stat fs (Dir p)) then (<[p := LinkNode oldname]> fs, None)
      else (fs, Some (ErrPath "symlink" newname ENOENT))
  end.

(** [os.OpenFile(name, O_CREATE|O_TRUNC|O_WRONLY, perm)]: the file is
    made empty, with [perm] when it is new; the result names the file
    that was opened. *)
Definition OpenFile (fs : gmap string Node) (name : string) (perm : Z)
    : (gmap string Node * option string) * option error :=
  match follow maxSymlinks fs (Clean name) with
  | None => ((fs, None), Some (ErrPath "open" name ELOOP))
  | Some q =>
      if always_there q then ((fs, None), Some (ErrPath "open" name EISDIR)) else
      match fs !! q with
      | Some (DirNode _) => ((fs, None), Some (ErrPath "open" name EISDIR))
      | Some (FileNode m _) => ((<[q := FileNode m []]> fs, Some q), None)
      | _ =>
          if is_dir (Stat fs (Dir q))
          then ((<[q := FileNode perm []]> fs, Some q), None)
          else ((fs, None), Some (ErrPath "open" name ENOENT))
      end
  end.

(** Writing [bytes] to the end of an open file. *)
Definition Append (fs : gmap string Node) (q : string) (bytes : list Byte.byte)
    : gmap string Node :=
  match fs !! q with
  | Some (FileNode m c) => <[q := FileNode m (c ++ bytes)]> fs
  | _ => fs
  end.

End GoOS.

Import GoOS.

(** ** installer.go *)

(** [Installer]. *)
Record Installer : Type := mkInstaller {
  InstallDir : string;
  BinDir : string
}.

(** [NewInstaller()]; [userCurrent] is the home directory and the error
    of [user.Current()], [homeEnv] the value of [$HOME].  The installer
    is nil when an error is returned. *)
Definition NewInstaller (userCurrent : string * option error) (homeEnv : string)
    : option Installer * option error :=
  match userCurrent with
  | (_, Some err) =>
      if negb (String.eqb homeEnv "") then
        (Some (mkInstaller (Join [homeEnv; ".local"; "lib"])
                           (Join [homeEnv; ".local"; "bin"])), None)
      else (None, Some (ErrWrap "failed to determine installation directory: " err))
  | (homeDir, None) =>
      (Some (mkInstaller (Join [homeDir; ".local"; "lib"])
                         (Join [homeDir; ".local"; "bin"])), None)
  end.

(** [Installer.ensureDirectories()]. *)
Definition ensureDirectories (i : Installer) (fs : gmap string Node)
    : gmap string Node * option error :=
  match MkdirAll fs (InstallDir i) 493 with
  | (fs1, Some err) =>
      (fs1, Some (ErrWrap ("failed to create install directory " +:+ InstallDir i +:+ ": ") err))
  | (fs1, None) =>
      match MkdirAll fs1 (BinDir i) 493 with
      | (fs2, Some err) =>
          (fs2, Some (ErrWrap ("failed to create bin directory " +:+ BinDir i +:+ ": ") err))
      | (fs2, None) => (fs2, None)
      end
  end.

(** [Installer.removeExisting()]. *)
Definition removeExisting (i : Installer) (fs : gmap string Node)
    : gmap string Node * option error :=
  let goDir := Join [InstallDir i; "go"] in
  if IsNotExist (snd (Stat fs goDir)) then (fs, None) else
  match RemoveAll fs goDir with
  | (fs1, Some err) =>
      (fs1, Some (ErrWrap "failed to remove existing Go installation: " err))
  | (fs1, None) =>
      let goLink := Join [BinDir i; "go"] in
      let step1 :=
        if is_nil (snd (Lstat fs1 goLink)) then
          match Remove fs1 goLink with
          | (fs2, Some err) =>
              (fs2, Some (ErrWrap "failed to remove existing Go symlink: " err))
          | (fs2, None) => (fs2, None)
          end
        else (fs1, None) in
      match step1 with
      | (fs2, Some err) => (fs2, Some err)
      | (fs2, None) =>
          let goFmtLink := Join [BinDir i; "gofmt"] in
          if is_nil (snd (Lstat fs2 goFmtLink)) then
            match Remove fs2 goFmtLink with
            | (fs3, Some err) =>
                (fs3, Some (ErrWrap "failed to remove existing gofmt symlink: " err))
            | (fs3, None) => (fs3, None)
            end
          else (fs2, None)
      end
  end.

(** archive/tar: the header of an entry. *)
Record Header : Type := mkHeader {
  Name : string;
  Typeflag : ascii;
  Mode : Z;
  Linkname : string
}.

Definition TypeReg : ascii := "0"%char.
Definition TypeSymlink : ascii := "2"%char.
Definition TypeDir : ascii := "5"%char.

(** An entry as the tar reader gives it: the header, the bytes of the
    entry, and the error that ends their reading, if any. *)
Record TarEntry : Type := mkTarEntry {
  header : Header;
  content : list Byte.byte;
  content_err : option error
}.

(** What opening and reading the tarball gives: the entries in order,
    and the error of [Next] after the last of them ([None] is [io.EOF]). *)
Inductive Tarball : Type :=
| TarOpenFails (err : error)
| GzipFails (err : error)
| TarStream (entries : list TarEntry) (tail : option error).

(** One entry of [extractTarball], from the target path on. *)
Definition extractEntry (i : Installer) (e : TarEntry) (fs : gmap string Node)
    : gmap string Node * option error :=
  let h := header e in
  let target := Join [InstallDir i; Name h] in
  if negb (HasPrefix target (InstallDir i)) then
    (fs, Some (ErrNew ("invalid tar entry (path traversal attempt): " +:+ Name h)))
  else if Ascii.eqb (Typeflag h) TypeDir then
    match MkdirAll fs target (Mode h) with
    | (fs1, Some err) =>
        (fs1, Some (ErrWrap ("failed to create directory " +:+ target +:+ ": ") err))
    | (fs1, None) => (fs1, None)
    end
  else if Ascii.eqb (Typeflag h) TypeReg then
    match MkdirAll fs (Dir target) 493 with
    | (fs1, Some err) =>
        (fs1, Some (ErrWrap ("failed to create parent directory for " +:+ target +:+ ": ") err))
    | (fs1, None) =>
        match OpenFile fs1 target (Mode h) with
        | ((fs2, Some file), None) =>
            let fs3 := Append fs2 file (content e) in
            match content_err e with
            | Some err =>
                (fs3, Some (ErrWrap ("failed to write file " +:+ target +:+ ": ") err))
            | None => (fs3, None)
            end
        | ((fs2, _), Some err) =>
            (fs2, Some (ErrWrap ("failed to create file " +:+ target +:+ ": ") err))
        | ((fs2, None), None) => (fs2, None)
        end
    end
  else if Ascii.eqb (Typeflag h) TypeSymlink then
    match MkdirAll fs (Dir target) 493 with
    | (fs1, Some err) =>
        (fs1, Some (ErrWrap ("failed to create parent directory for symlink "
                             +:+ target +:+ ": ") err))
    | (fs1, None) =>
        match Symlink fs1 (Linkname h) target with
        | (fs2, Some err) =>
            (fs2, Some (ErrWrap ("failed to create symlink " +:+ target +:+ " -> "
                                 +:+ Linkname h +:+ ": ") err))
        | (fs2, None) => (fs2, None)
        end
    end
  else (fs, None).

(** The loop of [extractTarball]; [n] counts the entries read so far and
    [ctxDone n] is the context's error when it is done at the start of
    that round. *)
Fixpoint extractLoop (i : Installer) (ctxDone : nat -> option error) (n : nat)
    (entries : list TarEntry) (tail : option error) (fs : gmap string Node)
    : gmap string Node * option error :=
  match ctxDone n with
  | Some cerr => (fs, Some (ErrWrap "extraction cancelled: " cerr))
  | None =>
      match entries with
      | [] =>
          match tail with
          | None => (fs, None)
          | Some err => (fs, Some (ErrWrap "failed to read tar header: " err))
          end
      | e :: rest =>
          match extractEntry i e fs with
          | (fs1, Some err) => (fs1, Some err)
          | (fs1, None) => extractLoop i ctxDone (S n) rest tail fs1
          end
      end
  end.

(** [Installer.extractTarball(ctx, tarballPath)]. *)
Definition extractTarball (i : Installer) (ctxDone : nat -> option error)
    (tarball : Tarball) (fs : gmap string Node) : gmap string Node * option error :=
  match tarball with
  | TarOpenFails err => (fs, Some (ErrWrap "failed to open tarball: " err))
  | GzipFails err => (fs, Some (ErrWrap "failed to create gzip reader: " err))
  | TarStream entries tail => extractLoop i ctxDone 0 entries tail fs
  end.

(** [Installer.createSymlinks()]. *)
Definition createSymlinks (i : Installer) (fs : gmap string Node)
    : gmap string Node * option error :=
  let goSrc := Join [InstallDir i; "go"; "bin"; "go"] in
  let goDst := Join [BinDir i; "go"] in
  match Symlink fs goSrc goDst with
  | (fs1, Some err) => (fs1, Some (ErrWrap "failed to create symlink for go: " err))
  | (fs1, None) =>
      let goFmtSrc := Join [InstallDir i; "go"; "bin"; "gofmt"] in
      let goFmtDst := Join [BinDir i; "gofmt"] in
      match Symlink fs1 goFmtSrc goFmtDst with
      | (fs2, Some err) => (fs2, Some (ErrWrap "failed to create symlink for gofmt: " err))
      | (fs2, None) => (fs2, None)
      end
  end.

(** [Installer.Install(ctx, tarballPath)]. *)
Definition Install (i : Installer) (ctxDone : nat -> option error)
    (tarball : Tarball) (fs : gmap string Node) : gmap string Node * option error :=
  match ensureDirectories i fs with
  | (fs1, Some err) =>
      (fs1, Some (ErrWrap "failed to create installation directories: " err))
  | (fs1, None) =>
      match removeExisting i fs1 with
      | (fs2, Some err) =>
          (fs2, Some (ErrWrap "failed to remove existing installation: " err))
      | (fs2, None) =>
          match extractTarball i ctxDone tarball fs2 with
          | (fs3, Some err) => (fs3, Some (ErrWrap "extraction failed: " err))
          | (fs3, None) =>
              match createSymlinks i fs3 with
              | (fs4, Some err) =>
                  (fs4, Some (ErrWrap "failed to create symlinks: " err))
              | (fs4, None) => (fs4, None)
              end
          end
      end
  end.

(** What the environment answers to the calls of [runGoCommand]:
    [os.Pipe], [cmd.Start], [io.ReadAll] on the read end, [cmd.Wait],
    and [ctxWins], the context's error when the [select] takes the
    branch of [ctx.Done()] instead of the one of the wait channel. *)
Record Subprocess : Type := mkSubprocess {
  pipeErr : option error;
  startErr : option error;
  outputBytes : list Byte.byte;
  readErr : option error;
  waitErr : option error;
  ctxWins : option error
}.

(** [Installer.runGoCommand(ctx, goPath, args, output)]; [output] is the
    text of the [strings.Builder], and the result carries the text it
    holds afterwards. *)
Definition runGoCommand (p : Subprocess) (output : string) : option error * string :=
  match pipeErr p with
  | Some err => (Some (ErrWrap "failed to create pipe: " err), output)
  | None =>
      match startErr p with
      | Some err => (Some (ErrWrap "failed to start command: " err), output)
      | None =>
          match readErr p with
          | Some err => (Some (ErrWrap "failed to read command output: " err), output)
          | None =>
              match ctxWins p with
              | Some cerr => (Some cerr, output)
              | None =>
                  match waitErr p with
                  | Some err => (Some (ErrWrap "command failed: " err), output)
                  | None => (None, output +:+ string_of_list_byte (outputBytes p))
                  end
              end
          end
      end
  end.

(** [Installer.Verify(ctx)]. *)
Definition Verify (i : Installer) (fs : gmap string Node) (p : Subprocess) : option error :=
  let goPath := Join [BinDir i; "go"] in
  if IsNotExist (snd (Stat fs goPath)) then
    Some (ErrNew ("Go binary not found at " +:+ goPath))
  else
    let output := EmptyString in
    match runGoCommand p output with
    | (Some err, output') =>
        Some (ErrWrap ("Go installation verification failed: " +:+ output' +:+ ": ") err)
    | (None, _) => None
    end.

(** ** cmd/updatego/main.go *)

(** The calls [app] makes on the pipeline's components. *)
Inductive Call : Type :=
| CallGetInstalledVersion
| CallGetLatestVersion
| CallNeedsUpdate
| CallDownload
| CallVerifyChecksum
| CallNewInstaller
| CallInstall.

(** How [app] ends: it returns an error value, or it panics. *)
Inductive Outcome : Type :=
| Returned (err : option error)
| Panicked (msg : string).

(** Everything outside the program that one run of [app] meets. *)
Record World : Type := mkWorld {
  runtimeVersion : string;
  ctxErr : error;
  feedReqErr : option error;
  feedAttempts : list RoundTrip;
  mkdirTemp : string * option error;
  createErr : option error;
  downloadAttempts : list DownloadAttempt;
  checksumAttempts : list ChecksumAttempt;
  reopen : list Byte.byte -> FileRead;
  userCurrent : string * option error;
  homeEnv : string;
  ctxDone : nat -> option error;
  disk : gmap string Node
}.

Section Orchestrator.

Variable jsonDecode : ResponseBody -> list GoRelease * option error.
Variable Sum256 : list Byte.byte -> list Byte.byte.
(** The gzip and tar readers on the bytes of the downloaded file. *)
Variable readTarball : list Byte.byte -> Tarball.

(** [app()]: the calls made, in order, and how the run ends.  The
    error of [NewInstaller] is not looked at, and [Install] on the nil
    installer it returns with an error dereferences nil. *)
Definition app (w : World) : list Call * Outcome :=
  let currentVersion := GetInstalledVersion (runtimeVersion w) in
  let t1 := [CallGetInstalledVersion; CallGetLatestVersion] in
  match GetLatestVersion jsonDecode (feedReqErr w) (ctxErr w) (feedAttempts w) [] with
  | ((_, Some err), _) =>
      (t1, Returned (Some (ErrWrap "failed to get latest version: " err)))
  | ((latestVersion, None), _) =>
  let t2 := t1 ++ [CallNeedsUpdate] in
  match NeedsUpdate currentVersion latestVersion with
  | (_, Some err) =>
      (t2, Returned (Some (ErrWrap "failed to check if update is needed: " err)))
  | (needsUpdate, None) =>
  if negb needsUpdate then (t2, Returned None) else
  let t3 := t2 ++ [CallDownload] in
  match Download (mkdirTemp w) (createErr w) (ctxErr w) (downloadAttempts w) latestVersion with
  | ((_, Some err), _) =>
      (t3, Returned (Some (ErrWrap "failed to download latest version: " err)))
  | ((path, None), file) =>
  let bytes := match file with Some f => data f | None => [] end in
  let t4 := t3 ++ [CallVerifyChecksum] in
  match VerifyChecksum Sum256 (ctxErr w) (checksumAttempts w) (reopen w bytes) with
  | (_, Some err) =>
      (t4, Returned (Some (ErrWrap "failed to verify downloaded version: " err)))
  | (verified, None) =>
  if negb verified then
    (t4, Returned (Some (ErrNew "downloaded version could not be verified")))
  else
  let t5 := t4 ++ [CallNewInstaller; CallInstall] in
  match NewInstaller (userCurrent w) (homeEnv w) with
  | (None, _) => (t5, Panicked "invalid memory address or nil pointer dereference")
  | (Some installer, _) =>
      match Install installer (ctxDone w) (readTarball bytes) (disk w) with
      | (_, Some err) => (t5, Returned (Some (ErrWrap "failed to install Go: " err)))
      | (_, None) => (t5, Returned None)
      end
  end end end end end.

End Orchestrator.

(** ** Definitions used to state the properties *)

(** The order of [NeedsUpdate] on parsed versions: installed before
    latest, by major, then minor, then patch. *)
Definition lex_lt (x y : Z * Z * Z) : bool :=
  let '(a, b, c) := x in
  let '(d, e, f) := y in
  (a <? d) || ((a =? d) && ((b <? e) || ((b =? e) && (c <? f)))).

(** A version string whose first three dot-separated elements are
    integers for [Atoi]. *)
Definition parsesAsVersion (s : string) : bool :=
  match Split s "." with
  | x :: y :: z :: _ => is_nil (snd (Atoi x)) && is_nil (snd (Atoi y)) && is_nil (snd (Atoi z))
  | _ => false
  end.

(** The first three elements of a version string, joined again. *)
Definition firstThree (s : string) : string :=
  join_with "." (firstn 3 (Split s ".")).

(** [c] occurs in [s]. *)
Fixpoint has_byte (c : ascii) (s : string) : bool :=
  match s with
  | EmptyString => false
  | String a r => Ascii.eqb a c || has_byte c r
  end.

(** The test of the loop of [GetLatestVersion]: a stable entry whose
    identifier has the prefix. *)
Definition stableGo (r : GoRelease) : bool :=
  Stable r && HasPrefix (Version r) "go".

(** The answer of [GetLatestVersion] for the entry that [find] gives. *)
Definition pickFirst (releases : list GoRelease) : string * option error :=
  match find stableGo releases with
  | Some r => (TrimPrefix (Version r) "go", None)
  | None => ("", Some (ErrNew "no stable Go releases found"))
  end.

(** The feed of the specification's example. *)
Definition exampleFeed : list GoRelease :=
  [ mkGoRelease "go1.17.1" true;
    mkGoRelease "go1.16.8" true;
    mkGoRelease "go1.18beta1" false ].

(** A decoder that reads the example's feed from every body, and
    attempts of which the third is answered with status 200. *)
Definition exampleDecode (b : ResponseBody) : list GoRelease * option error :=
  (exampleFeed, None).

Definition exampleAttempts : list RoundTrip :=
  [ DoFails (ErrTransport "connection refused");
    DoReturns 503 (mkBody 0 [] None);
    DoReturns 200 (mkBody 1 [] None) ].

(** An attempt of [Download] after which the poller tries again: the
    request fails, the status is not 200, or the copy of the body ends
    in an error. *)
Definition downloadRetryable (a : DownloadAttempt) : bool :=
  match a with
  | Sent (DoFails _) => true
  | Sent (DoReturns code b) => negb (code =? StatusOK) || negb (is_nil (body_err b))
  | _ => false
  end.

(** The attempt of [Download] that ends the polling with success: status
    200 and a body that is read to its end. *)
Definition downloadSucceeds (id : nat) (bytes : list Byte.byte) : DownloadAttempt :=
  Sent (DoReturns StatusOK (mkBody id bytes None)).


Definition checksumSucceeds (id : nat) (bytes : list Byte.byte) : ChecksumAttempt :=
  ChecksumSent (DoReturns StatusOK (mkBody id bytes None)).




(** Three attempts of [Download] that are retried: a failed request, a
    copy that breaks off after two bytes, and a status 503. *)
Definition exampleFailures : list DownloadAttempt :=
  [ Sent (DoFails (ErrTransport "connection reset"));
    Sent (DoReturns 200 (mkBody 0 [Byte.x41; Byte.x42] (Some (ErrRead "unexpected EOF"))));
    Sent (DoReturns 503 (mkBody 1 [Byte.x45] None)) ].

(** A digest for examples: the first byte of the file. *)
Definition toySum (bytes : list Byte.byte) : list Byte.byte :=
  match bytes with
  | [] => [Byte.x00]
  | b :: _ => [b]
  end.

(** The checksum body for a file whose digest is [ab]. *)
Definition exampleChecksumBody : list Byte.byte :=
  list_byte_of_string "ab  go1.24.1.linux-amd64.tar.gz".

(** The containment the specification asks of [extractTarball]: the
    cleaned target lies below the cleaned install root. *)
Definition insideRoot (root target : string) : bool :=
  within (Clean root) (Clean target)
  && negb (String.eqb (Clean target) (Clean root)).

(** The installer [NewInstaller] builds for the home directory [/home/u]. *)
Definition userInstaller : Installer :=
  mkInstaller "/home/u/.local/lib" "/home/u/.local/bin".

(** A regular-file entry whose name leaves the install root for a
    directory next to it with the root's name as a prefix of its own. *)
Definition siblingEntry : TarEntry :=
  mkTarEntry (mkHeader "../lib2/evil" TypeReg 420 "") [Byte.x41] None.

Definition neverDone (n : nat) : option error := None.

(** A disk with the bin directory and the two links of an installation
    whose tree under the install root is gone. *)
Definition leftoverLinks : gmap string Node :=
  <["/home/u/.local/bin/gofmt" := LinkNode "/home/u/.local/lib/go/bin/gofmt"]>
  (<["/home/u/.local/bin/go" := LinkNode "/home/u/.local/lib/go/bin/go"]>
  (<["/home/u/.local/bin" := DirNode 493]>
  (<["/home/u/.local/lib" := DirNode 493]>
  (<["/home/u/.local" := DirNode 493]>
  (<["/home/u" := DirNode 493]>
  (<["/home" := DirNode 493]> ∅)))))).

(** A disk with an installed [go] behind the link in the bin directory. *)
Definition installedGo : gmap string Node :=
  <["/home/u/.local/bin/go" := LinkNode "/home/u/.local/lib/go/bin/go"]>
  (<["/home/u/.local/lib/go/bin/go" := FileNode 493 []]> ∅).

(** A subprocess that prints [boom] and exits with status 1 before the
    deadline. *)
Definition failingGo : Subprocess :=
  mkSubprocess None None (list_byte_of_string "boom") None (Some (ErrExit 1)) None.

(** The calls of the whole pipeline, in order. *)
Definition pipeline : list Call :=
  [ CallGetInstalledVersion; CallGetLatestVersion; CallNeedsUpdate;
    CallDownload; CallVerifyChecksum; CallNewInstaller; CallInstall ].

(** What the components answer to [app] in a world. *)
Section StageAnswers.

Variable jsonDecode : ResponseBody -> list GoRelease * option error.
Variable Sum256 : list Byte.byte -> list Byte.byte.
Variable readTarball : list Byte.byte -> Tarball.
Variable w : World.

Definition latestAnswer : string * option error :=
  fst (GetLatestVersion jsonDecode (feedReqErr w) (ctxErr w) (feedAttempts w) []).

Definition needsAnswer : bool * option error :=
  NeedsUpdate (GetInstalledVersion (runtimeVersion w)) (fst latestAnswer).

Definition downloadAnswer : (string * option error) * option File :=
  Download (mkdirTemp w) (createErr w) (ctxErr w) (downloadAttempts w) (fst latestAnswer).

Definition downloadedBytes : list Byte.byte :=
  match snd downloadAnswer with Some f => data f | None => [] end.

Definition verifyAnswer : bool * option error :=
  VerifyChecksum Sum256 (ctxErr w) (checksumAttempts w) (reopen w downloadedBytes).

(** The error of [Install], or [None] when there is no installer to
    call it on. *)
Definition installAnswer : option (option error) :=
  match NewInstaller (userCurrent w) (homeEnv w) with
  | (Some i, _) => Some (snd (Install i (ctxDone w) (readTarball downloadedBytes) (disk w)))
  | (None, _) => None
  end.

End StageAnswers.

(** ** Definitions used to state further properties *)

(** The first three elements of a version string as [Atoi] reads them,
    when it reads all three. *)
Definition versionTriple (s : string) : option (Z * Z * Z) :=
  match Split s "." with
  | x :: y :: z :: _ =>
      match Atoi x, Atoi y, Atoi z with
      | (a, None), (b, None), (c, None) => Some (a, b, c)
      | _, _, _ => None
      end
  | _ => None
  end.

(** An attempt of [getReleasesWithRetry] after which the poller tries
    again, and the error the closure keeps for it. *)
Definition roundTripFails (rt : RoundTrip) : bool :=
  match rt with
  | DoFails _ => true
  | DoReturns code _ => negb (code =? StatusOK)
  end.

Definition roundTripError (rt : RoundTrip) : error :=
  match rt with
  | DoFails err => err
  | DoReturns code _ => ErrStatus code
  end.

(** The error the closure of [Download] keeps for an attempt that is
    retried, or returns for one that ends the polling. *)
Definition downloadAttemptError (a : DownloadAttempt) : error :=
  match a with
  | SeekFails err => ErrWrap "failed to reset file position: " err
  | TruncateFails err => ErrWrap "failed to truncate file: " err
  | NewRequestFails err => ErrWrap "failed to create request: " err
  | Sent (DoFails err) => ErrWrap "failed to perform HTTP request: " err
  | Sent (DoReturns code b) =>
      match body_err b with
      | Some err =>
          if code =? StatusOK then ErrWrap "failed to copy response body: " err
          else ErrStatus code
      | None => ErrStatus code
      end
  end.

(** The bytes an attempt of [Download] leaves in the file. *)
Definition downloadAttemptBytes (a : DownloadAttempt) : list Byte.byte :=
  match a with
  | Sent (DoReturns code b) => if code =? StatusOK then body_bytes b else []
  | _ => []
  end.

(** An attempt of [Download] that ends the polling with an error. *)
Definition downloadFatal (a : DownloadAttempt) : bool :=
  match a with
  | SeekFails _ | TruncateFails _ | NewRequestFails _ => true
  | Sent _ => false
  end.


(** The value of a lower-case hexadecimal digit, and the inverse of
    [EncodeToString] on well-formed input. *)
Definition hexValue (c : ascii) : N :=
  let n := N_of_ascii c in
  if (n <? 58)%N then (n - 48)%N else (n - 87)%N.

Fixpoint DecodeString (s : string) : list Byte.byte :=
  match s with
  | String hi (String lo rest) =>
      match Byte.of_N (16 * hexValue hi + hexValue lo) with
      | Some b => b :: DecodeString rest
      | None => []
      end
  | _ => []
  end.

Definition isLowerHex (c : ascii) : bool :=
  let n := nat_of_ascii c in
  ((48 <=? n)%nat && (n <=? 57)%nat) || ((97 <=? n)%nat && (n <=? 102)%nat).

Fixpoint allLowerHex (s : string) : bool :=
  match s with
  | EmptyString => true
  | String c rest => isLowerHex c && allLowerHex rest
  end.

(** A context that is done from the second round on. *)
Definition doneAfterOne (n : nat) : option error :=
  match n with
  | O => None
  | S _ => Some ErrDeadlineExceeded
  end.

(** Two entries of a release archive. *)
Definition versionEntry : TarEntry :=
  mkTarEntry (mkHeader "go/VERSION" TypeReg 420 "") [Byte.x41] None.

Definition goBinaryEntry : TarEntry :=
  mkTarEntry (mkHeader "go/bin/go" TypeReg 493 "") [Byte.x7f] None.

(** An ordinary element of a path: not empty, not [.] and not [..],
    and without a separator in it. *)
Definition ordinary (e : string) : bool :=
  negb (String.eqb e "") && negb (String.eqb e ".")
  && negb (String.eqb e "..") && negb (has_byte "/" e).

(** The elements of a cleaned path, in order: elements [..] (none when
    the path is rooted), then ordinary elements. *)
Definition cleanElems (rooted : bool) (l : list string) : Prop :=
  exists k m, l = repeat ".." k ++ m
              /\ forallb ordinary m = true
              /\ (rooted = true -> k = O).

(** The text of a cleaned path with these elements. *)
Definition render (rooted : bool) (l : list string) : string :=
  if rooted then "/" +:+ join_with "/" l
  else match l with
       | [] => "."
       | _ => join_with "/" l
       end.

(** A disk with the tree of an installation and its two links. *)
Definition installedDisk : gmap string Node :=
  <["/home/u/.local/lib/go/VERSION" := FileNode 420 [Byte.x41]]>
  (<["/home/u/.local/lib/go" := DirNode 493]> leftoverLinks).

(** A world in which the running toolchain is a release candidate and
    the feed is the example's. *)
Definition candidateWorld : World :=
  mkWorld "go1.24rc1" ErrDeadlineExceeded None exampleAttempts
    ("/tmp/goupdate-1", None) None [downloadSucceeds 2 [Byte.x43]]
    [checksumSucceeds 3 exampleChecksumBody] Content
    ("/home/u", None) "/home/u" neverDone ∅.

(** * Properties *)

(** ** Version comparison *)

Lemma Split_not_nil s sep : Split s sep <> [].
Proof.
  destruct s as [|c s]; simpl; [discriminate|].
  destruct (Ascii.eqb c sep); [discriminate|].
  destruct (Split s sep); discriminate.
Qed.

(** No element of a split holds the separator. *)
Lemma Split_elem_no_sep sep s :
  Forall (fun x => has_byte sep x = false) (Split s sep).
Proof.
  induction s as [|c s IH]; simpl.
  - repeat constructor.
  - destruct (Ascii.eqb c sep) eqn:E.
    + constructor; [reflexivity | exact IH].
    + destruct (Split s sep) as [|h t] eqn:S.
      * constructor; [simpl; rewrite E; reflexivity | constructor].
      * inversion IH as [|? ? Hh Ht]; subst.
        constructor; [simpl; rewrite E; exact Hh | exact Ht].
Qed.

Lemma Split_no_sep sep x : has_byte sep x = false -> Split x sep = [x].
Proof.
  induction x as [|c x IH]; simpl; [reflexivity|].
  intros H. apply orb_false_iff in H as [H1 H2].
  rewrite H1, (IH H2). reflexivity.
Qed.

Lemma Split_app_sep sep x rest :
  has_byte sep x = false ->
  Split (x +:+ String sep rest) sep = x :: Split rest sep.
Proof.
  induction x as [|c x IH]; simpl; intros H.
  - rewrite Ascii.eqb_refl. reflexivity.
  - apply orb_false_iff in H as [H1 H2].
    rewrite H1, (IH H2). reflexivity.
Qed.

Lemma Split_join3 x y z :
  has_byte "." x = false -> has_byte "." y = false -> has_byte "." z = false ->
  Split (join_with "." [x; y; z]) "." = [x; y; z].
Proof.
  intros Hx Hy Hz. cbn [join_with].
  change (x +:+ "." +:+ y +:+ "." +:+ z) with (x +:+ String "." (y +:+ String "." z)).
  rewrite (Split_app_sep _ _ _ Hx), (Split_app_sep _ _ _ Hy), (Split_no_sep _ _ Hz).
  reflexivity.
Qed.

(** [NeedsUpdate] once the first three elements of both sides are read
    as integers: the order on the triples, and no error. *)
Lemma NeedsUpdate_parsed installed latest i0 i1 i2 ri l0 l1 l2 rl a b c d e f :
  Split installed "." = i0 :: i1 :: i2 :: ri ->
  Split latest "." = l0 :: l1 :: l2 :: rl ->
  Atoi i0 = (a, None) -> Atoi i1 = (b, None) -> Atoi i2 = (c, None) ->
  Atoi l0 = (d, None) -> Atoi l1 = (e, None) -> Atoi l2 = (f, None) ->
  NeedsUpdate installed latest = (lex_lt (a, b, c) (d, e, f), None).
Proof.
  intros Hi Hl Ha Hb Hc Hd He Hf.
  unfold NeedsUpdate.
  destruct (String.eqb_spec installed "") as [->|_]; [discriminate Hi|].
  rewrite Hi, Hl. cbn [length Nat.ltb Nat.leb orb at_index nth].
  rewrite Ha, Hd. unfold lex_lt.
  destruct (Z.ltb_spec a d); [reflexivity|].
  destruct (Z.gtb_spec a d).
  { destruct (Z.eqb_spec a d); [lia | reflexivity]. }
  destruct (Z.eqb_spec a d); [|lia].
  rewrite Hb, He. cbn [orb andb].
  destruct (Z.ltb_spec b e); [reflexivity|].
  destruct (Z.gtb_spec b e).
  { destruct (Z.eqb_spec b e); [lia | reflexivity]. }
  destruct (Z.eqb_spec b e); [|lia].
  rewrite Hc, Hf. cbn [orb andb].
  destruct (Z.ltb_spec c f); [reflexivity|].
  destruct (Z.gtb_spec c f); reflexivity.
Qed.

(** C10: [NeedsUpdate] takes version strings with more than three
    dot-separated elements without error.  When the first three elements
    of both strings are integers, the result is the order on these two
    triples and no error, whatever the elements after the third are, and
    it is the result for the two strings cut after their third element. *)
Theorem NeedsUpdate_ignores_extra_components
    installed latest i0 i1 i2 ri l0 l1 l2 rl a b c d e f :
  Split installed "." = i0 :: i1 :: i2 :: ri ->
  Split latest "." = l0 :: l1 :: l2 :: rl ->
  Atoi i0 = (a, None) -> Atoi i1 = (b, None) -> Atoi i2 = (c, None) ->
  Atoi l0 = (d, None) -> Atoi l1 = (e, None) -> Atoi l2 = (f, None) ->
  NeedsUpdate installed latest = (lex_lt (a, b, c) (d, e, f), None)
  /\ NeedsUpdate installed latest
     = NeedsUpdate (firstThree installed) (firstThree latest).
Proof.
  intros Hi Hl Ha Hb Hc Hd He Hf.
  pose proof (NeedsUpdate_parsed _ _ _ _ _ _ _ _ _ _ _ _ _ _ _ _
                Hi Hl Ha Hb Hc Hd He Hf) as Hfull.
  split; [exact Hfull|].
  rewrite Hfull. symmetry.
  pose proof (Split_elem_no_sep "." installed) as Fi.
  pose proof (Split_elem_no_sep "." latest) as Fl.
  rewrite Hi in Fi. rewrite Hl in Fl.
  inversion Fi as [|? ? Fi0 Fi']; subst. inversion Fi' as [|? ? Fi1 Fi'']; subst.
  inversion Fi'' as [|? ? Fi2 _]; subst.
  inversion Fl as [|? ? Fl0 Fl']; subst. inversion Fl' as [|? ? Fl1 Fl'']; subst.
  inversion Fl'' as [|? ? Fl2 _]; subst.
  apply (NeedsUpdate_parsed _ _ i0 i1 i2 [] l0 l1 l2 []); try assumption.
  - unfold firstThree. rewrite Hi. cbn [firstn]. apply Split_join3; assumption.
  - unfold firstThree. rewrite Hl. cbn [firstn]. apply Split_join3; assumption.
Qed.

(** [NeedsUpdate("1.2.3.9", "1.2.3")] is [(false, nil)]. *)
Lemma NeedsUpdate_ignores_extra_components_witness :
  NeedsUpdate "1.2.3.9" "1.2.3" = (lex_lt (1, 2, 3) (1, 2, 3), None)
  /\ NeedsUpdate "1.2.3.9" "1.2.3" = NeedsUpdate (firstThree "1.2.3.9") (firstThree "1.2.3").
Proof.
  apply (NeedsUpdate_ignores_extra_components
           "1.2.3.9" "1.2.3" "1" "2" "3" ["9"] "1" "2" "3" [] 1 2 3 1 2 3);
    reflexivity.
Defined.

(** A fourth element that is no integer is not looked at. *)
Example NeedsUpdate_fourth_not_integer :
  NeedsUpdate "1.2.3.x" "1.2.3" = (false, None)
  /\ NeedsUpdate "1.2.3.x" "1.2.4.beta" = (true, None)
  /\ NeedsUpdate "1.2.3.9" "1.2.3" = (false, None).
Proof. vm_compute. auto. Qed.

(** When the majors are read and differ they decide, and what follows
    them on either side is not read. *)
Lemma NeedsUpdate_major_decides installed latest i0 i1 i2 ri l0 l1 l2 rl a d :
  Split installed "." = i0 :: i1 :: i2 :: ri ->
  Split latest "." = l0 :: l1 :: l2 :: rl ->
  Atoi i0 = (a, None) -> Atoi l0 = (d, None) -> a <> d ->
  NeedsUpdate installed latest = (a <? d, None).
Proof.
  intros Hi Hl Ha Hd Hne. unfold NeedsUpdate.
  destruct (String.eqb_spec installed "") as [->|_]; [discriminate Hi|].
  rewrite Hi, Hl. cbn [length Nat.ltb Nat.leb orb at_index nth].
  rewrite Ha, Hd.
  destruct (Z.ltb_spec a d); [reflexivity|].
  destruct (Z.gtb_spec a d); [reflexivity | lia].
Qed.

(** C2, on the code: the elements of a version are read one pair at a
    time, and the pair that decides ends the call.  With ["1.a.1"]
    installed and ["2.0.0"] latest the majors decide, the minor ["a"] is
    never read, and the call returns [(true, nil)] for a string that is
    no version. *)
Theorem NeedsUpdate_unparsed_minor_accepted :
  parsesAsVersion "1.a.1" = false
  /\ is_nil (snd (Atoi "a")) = false
  /\ NeedsUpdate "1.a.1" "2.0.0" = (true, None)
  /\ NeedsUpdate "3.0.x" "2.0.0" = (false, None)
  /\ NeedsUpdate "1.22.3 X:boringcrypto" "1.23.0" = (true, None).
Proof. vm_compute. repeat split; reflexivity. Qed.

(** The values the specification lists for [NeedsUpdate]. *)
Example NeedsUpdate_listed_values :
  NeedsUpdate "" "1.2.3" = (true, None)
  /\ NeedsUpdate "1.2.3" "1.2.3" = (false, None)
  /\ NeedsUpdate "1.2.0" "1.3.0" = (true, None)
  /\ NeedsUpdate "2.0.0" "1.9.9" = (false, None)
  /\ NeedsUpdate "1.a.1" "1.2.3"
     = (false, Some (ErrWrap "invalid minor version in 1.a.1: " (ErrSyntax "Atoi" "a"))).
Proof. vm_compute. repeat split; reflexivity. Qed.

(** An empty installed version always asks for the update. *)
Lemma NeedsUpdate_empty latest : NeedsUpdate "" latest = (true, None).
Proof. reflexivity. Qed.

(** Fewer than three elements on either side is an error. *)
Lemma NeedsUpdate_too_short installed latest :
  installed <> "" ->
  (length (Split installed ".") < 3 \/ length (Split latest ".") < 3)%nat ->
  NeedsUpdate installed latest
  = (false, Some (ErrNew "invalid version format: versions must be in the format X.Y.Z")).
Proof.
  intros Hne Hlen. unfold NeedsUpdate.
  destruct (String.eqb_spec installed ""); [contradiction|].
  destruct Hlen as [H|H].
  - apply Nat.ltb_lt in H. rewrite H. reflexivity.
  - apply Nat.ltb_lt in H. rewrite H, orb_true_r. reflexivity.
Qed.

(** ** The retry poller *)

(** Attempts that neither finish nor fail are passed over; the state
    they leave is the one the next attempt starts from. *)
Lemma poll_skip {St A : Type} (cond : A -> St -> (bool * option error) * St)
    ctxErr (pre rest : list A) (st : St) :
  (forall a s, In a pre -> fst (cond a s) = (false, None)) ->
  poll cond ctxErr (pre ++ rest) st
  = poll cond ctxErr rest (fold_left (fun s a => snd (cond a s)) pre st).
Proof.
  revert st. induction pre as [|a pre IH]; intros st Hpre; [reflexivity|].
  pose proof (Hpre a st (or_introl eq_refl)) as Ha.
  simpl. destruct (cond a st) as [[ok err] st'] eqn:E. simpl in Ha |- *.
  injection Ha as -> ->.
  apply IH. intros a' s Hin. apply Hpre. right. exact Hin.
Qed.

(** ** The resolver *)

Lemma firstStable_find releases : firstStable releases = pickFirst releases.
Proof.
  unfold pickFirst. induction releases as [|r rest IH]; [reflexivity|].
  change (firstStable (r :: rest))
    with (if stableGo r then (TrimPrefix (Version r) "go", None) else firstStable rest).
  simpl find. destruct (stableGo r); [reflexivity | exact IH].
Qed.

(** The entry that is picked has nothing stable before it, whatever
    comes after it. *)
Lemma firstStable_first pre r post :
  forallb (fun x => negb (stableGo x)) pre = true ->
  stableGo r = true ->
  firstStable (pre ++ r :: post) = (TrimPrefix (Version r) "go", None).
Proof.
  intros Hpre Hr. rewrite firstStable_find. unfold pickFirst.
  induction pre as [|x pre IH]; simpl.
  - rewrite Hr. reflexivity.
  - simpl in Hpre. apply andb_true_iff in Hpre as [Hx Hpre].
    apply negb_true_iff in Hx. rewrite Hx. exact (IH Hpre).
Qed.

Lemma firstStable_none releases :
  forallb (fun x => negb (stableGo x)) releases = true ->
  firstStable releases = ("", Some (ErrNew "no stable Go releases found")).
Proof.
  rewrite firstStable_find. unfold pickFirst.
  induction releases as [|x l IH]; [reflexivity|].
  simpl. intros H. apply andb_true_iff in H as [Hx Hl].
  apply negb_true_iff in Hx. rewrite Hx. exact (IH Hl).
Qed.

(** C5: when the feed is fetched and decoded, [GetLatestVersion] returns
    the identifier, without its prefix, of the first entry in feed order
    that is stable and has the prefix, and the error "no stable Go
    releases found" when no entry is. *)
Theorem GetLatestVersion_first_stable
    jsonDecode ctxErr attempts log releases log' :
  getReleasesWithRetry jsonDecode ctxErr attempts log = ((releases, None), log') ->
  fst (GetLatestVersion jsonDecode None ctxErr attempts log) = pickFirst releases
  /\ (forall pre r post,
        releases = pre ++ r :: post ->
        forallb (fun x => negb (stableGo x)) pre = true ->
        stableGo r = true ->
        fst (GetLatestVersion jsonDecode None ctxErr attempts log)
        = (TrimPrefix (Version r) "go", None))
  /\ (forallb (fun x => negb (stableGo x)) releases = true ->
      fst (GetLatestVersion jsonDecode None ctxErr attempts log)
      = ("", Some (ErrNew "no stable Go releases found"))).
Proof.
  intros Hget. unfold GetLatestVersion. rewrite Hget. cbn [fst].
  split; [apply firstStable_find|]. split.
  - intros pre r post -> Hpre Hr. apply firstStable_first; assumption.
  - apply firstStable_none.
Qed.

(** The feed of the example gives ["1.17.1"]. *)
Lemma GetLatestVersion_first_stable_witness :
  getReleasesWithRetry exampleDecode ErrDeadlineExceeded exampleAttempts []
  = ((exampleFeed, None), [])
  /\ fst (GetLatestVersion exampleDecode None ErrDeadlineExceeded exampleAttempts [])
     = ("1.17.1", None).
Proof.
  split; [reflexivity|].
  destruct (GetLatestVersion_first_stable exampleDecode ErrDeadlineExceeded
              exampleAttempts [] exampleFeed [] eq_refl) as [H _].
  rewrite H. reflexivity.
Defined.

(** C6, on the code: [getReleasesWithRetry] closes nothing.  The
    deferred [safeClose] was given the nil value that [body] had at the
    [defer] statement, so no call of [Close] is made, whatever the
    attempts are and however the call ends. *)
Theorem getReleasesWithRetry_closes_nothing jsonDecode ctxErr attempts log :
  snd (getReleasesWithRetry jsonDecode ctxErr attempts log) = log.
Proof.
  unfold getReleasesWithRetry.
  destruct (poll releasesAttempt ctxErr attempts (mkFetchVars None None)) as [terr v].
  reflexivity.
Qed.

(** The body of a successful attempt is still open when
    [GetLatestVersion] has returned the version. *)
Example GetLatestVersion_leaves_body_open :
  GetLatestVersion exampleDecode None ErrDeadlineExceeded [DoReturns 200 (mkBody 7 [] None)] []
  = (("1.17.1", None), [])
  /\ times_closed (mkBody 7 [] None)
       (snd (GetLatestVersion exampleDecode None ErrDeadlineExceeded
               [DoReturns 200 (mkBody 7 [] None)] [])) = 0%nat.
Proof. vm_compute. split; reflexivity. Qed.

(** ** The downloader *)

Lemma poll_cons {St A : Type} (cond : A -> St -> (bool * option error) * St)
    ctxErr (a : A) (rest : list A) (st : St) :
  poll cond ctxErr (a :: rest) st
  = match cond a st with
    | ((_, Some e), st') => (Some e, st')
    | ((true, None), st') => (None, st')
    | ((false, None), st') => poll cond ctxErr rest st'
    end.
Proof.
  simpl. destruct (cond a st) as [[ok err] st']. destruct err, ok; reflexivity.
Qed.

(** A successful poll has one attempt that reported done, and only
    attempts that asked for another try before it. *)
Lemma poll_success_inv {St A : Type} (cond : A -> St -> (bool * option error) * St)
    ctxErr (attempts : list A) (st st' : St) :
  poll cond ctxErr attempts st = (None, st') ->
  exists pre a post s,
    attempts = pre ++ a :: post
    /\ Forall (fun x => exists s0, fst (cond x s0) = (false, None)) pre
    /\ cond a s = ((true, None), st').
Proof.
  revert st. induction attempts as [|a l IH]; intros st H; [simpl in H; discriminate H|].
  rewrite poll_cons in H. destruct (cond a st) as [[ok err] st1] eqn:E.
  destruct err as [e|]; [destruct ok; simpl in H; discriminate H|].
  destruct ok; simpl in H.
  - injection H as <-. exists [], a, l, st. repeat split; auto.
  - destruct (IH _ H) as (pre & a' & post & s & -> & HF & Hc).
    exists (a :: pre), a', post, s. repeat split; auto.
    constructor; [exists st; rewrite E; reflexivity | exact HF].
Qed.

Lemma Truncate_Seek_empty f : Truncate (Seek f 0) 0 = mkFile [] 0.
Proof. reflexivity. Qed.

Lemma Write_empty bytes : Write (mkFile [] 0) bytes = mkFile bytes (length bytes).
Proof.
  unfold Write. simpl. rewrite skipn_nil, app_nil_r. reflexivity.
Qed.

(** Why both calls are needed before the copy: truncating alone leaves
    the offset where the last attempt ended, and the next write starts
    after a gap of zero bytes. *)
Example Truncate_alone_leaves_gap :
  Write (Truncate (mkFile [Byte.x41; Byte.x42] 2) 0) [Byte.x43]
  = mkFile [Byte.x00; Byte.x00; Byte.x43] 3
  /\ Write (Truncate (Seek (mkFile [Byte.x41; Byte.x42] 2) 0) 0) [Byte.x43]
     = mkFile [Byte.x43] 1.
Proof. split; reflexivity. Qed.

(** Every attempt that sends the request copies into the empty file:
    what an earlier attempt left is gone. *)
Lemma downloadAttempt_starts_empty rt v :
  output (snd (downloadAttempt (Sent rt) v))
  = match rt with
    | DoFails _ => mkFile [] 0
    | DoReturns code b =>
        if code =? StatusOK then Write (mkFile [] 0) (body_bytes b) else mkFile [] 0
    end.
Proof.
  destruct rt as [e | code b]; [reflexivity|].
  simpl. destruct (code =? StatusOK); simpl; [|reflexivity].
  destruct (body_err b); reflexivity.
Qed.

Lemma downloadRetryable_retries a v :
  downloadRetryable a = true -> fst (downloadAttempt a v) = (false, None).
Proof.
  destruct a as [e|e|e|[e|code b]]; simpl; try discriminate; [reflexivity|].
  destruct (code =? StatusOK); simpl; [|reflexivity].
  destruct (body_err b); [reflexivity | discriminate].
Qed.

Lemma downloadSucceeds_done id bytes v :
  downloadAttempt (downloadSucceeds id bytes) v
  = ((true, None), mkDownloadVars (mkFile bytes (length bytes)) (dl_lastSeenErr v)).
Proof.
  unfold downloadSucceeds, downloadAttempt, copyBody. simpl.
  rewrite Truncate_Seek_empty, Write_empty. reflexivity.
Qed.

(** C4: every attempt of the poll loop of [Download] empties the
    destination file (offset 0, length 0) before it copies the body, so
    after attempts that failed, some of them in the middle of a copy,
    and one that succeeds, [Download] returns the path and the file
    holds the bytes of the successful body and nothing else. *)
Theorem Download_file_is_successful_body
    tmpDir ctxErr pre id bytes post version :
  forallb downloadRetryable pre = true ->
  Download (tmpDir, None) None ctxErr (pre ++ downloadSucceeds id bytes :: post) version
  = ((Join [tmpDir; archiveName version], None), Some (mkFile bytes (length bytes)))
  /\ (forall rt v,
        output (snd (downloadAttempt (Sent rt) v))
        = match rt with
          | DoFails _ => mkFile [] 0
          | DoReturns code b =>
              if code =? StatusOK then Write (mkFile [] 0) (body_bytes b) else mkFile [] 0
          end).
Proof.
  intros Hpre. split; [|apply downloadAttempt_starts_empty].
  unfold Download. rewrite poll_skip.
  - rewrite poll_cons, downloadSucceeds_done. reflexivity.
  - intros a s Hin. apply downloadRetryable_retries.
    rewrite forallb_forall in Hpre. apply Hpre. exact Hin.
Qed.

(** A failed request, a copy that breaks off after two bytes and a
    status 503 before the body that is kept. *)
Lemma Download_file_is_successful_body_witness :
  forallb downloadRetryable exampleFailures = true
  /\ Download ("/tmp/goupdate-1", None) None ErrDeadlineExceeded
       (exampleFailures ++ downloadSucceeds 2 [Byte.x43] :: []) "1.24.1"
     = (("/tmp/goupdate-1/go1.24.1.linux-amd64.tar.gz", None), Some (mkFile [Byte.x43] 1)).
Proof.
  split; [reflexivity|].
  exact (proj1 (Download_file_is_successful_body "/tmp/goupdate-1" ErrDeadlineExceeded
                  exampleFailures 2%nat [Byte.x43] [] "1.24.1" eq_refl)).
Defined.

Lemma downloadAttempt_done_inv a v v' :
  downloadAttempt a v = ((true, None), v') ->
  exists id bytes, a = downloadSucceeds id bytes
                   /\ output v' = mkFile bytes (length bytes).
Proof.
  destruct a as [e|e|e|[e|code [id bytes berr]]]; simpl; try discriminate.
  destruct (Z.eqb_spec code StatusOK) as [->|_]; simpl; [|discriminate].
  destruct berr; [discriminate|].
  intros H. injection H as <-. exists id, bytes. split; [reflexivity|].
  simpl. apply Write_empty.
Qed.

Lemma downloadAttempt_retry_inv a v :
  fst (downloadAttempt a v) = (false, None) -> downloadRetryable a = true.
Proof.
  destruct a as [e|e|e|[e|code b]]; simpl; try discriminate; [reflexivity|].
  destruct (code =? StatusOK); simpl; [|reflexivity].
  destruct (body_err b); [reflexivity | discriminate].
Qed.

(** Whenever [Download] returns a path, the file holds the body of the
    one attempt that succeeded, after attempts that all were retried. *)
Lemma Download_success_inv mkdirTemp createErr ctxErr attempts version path file :
  Download mkdirTemp createErr ctxErr attempts version = ((path, None), file) ->
  exists pre id bytes post,
    attempts = pre ++ downloadSucceeds id bytes :: post
    /\ forallb downloadRetryable pre = true
    /\ file = Some (mkFile bytes (length bytes)).
Proof.
  unfold Download. destruct mkdirTemp as [tmpDir [e|]]; [discriminate|].
  destruct createErr as [e|]; [discriminate|].
  destruct (poll downloadAttempt ctxErr attempts (mkDownloadVars (mkFile [] 0) None))
    as [err v] eqn:P.
  destruct err as [e|].
  { destruct (dl_lastSeenErr v); discriminate. }
  intros H. injection H as _ <-.
  destruct (poll_success_inv _ _ _ _ _ P) as (pre & a & post & s & -> & HF & Hc).
  destruct (downloadAttempt_done_inv _ _ _ Hc) as (id & bytes & -> & Hout).
  exists pre, id, bytes, post. repeat split.
  - apply forallb_forall. intros x Hx. rewrite Forall_forall in HF.
    destruct (HF x) as [s0 Hs0]; [apply list_elem_of_In; exact Hx|].
    exact (downloadAttempt_retry_inv _ _ Hs0).
  - rewrite Hout. reflexivity.
Qed.

Lemma append_nil_r (s : string) : s +:+ "" = s.
Proof.
  induction s as [|c s IH]; [reflexivity|].
  change (String c (s +:+ "") = String c s). rewrite IH. reflexivity.
Qed.

Lemma append_assoc (a b c : string) : (a +:+ b) +:+ c = a +:+ (b +:+ c).
Proof.
  induction a as [|x a IH]; [reflexivity|].
  change (String x ((a +:+ b) +:+ c) = String x (a +:+ (b +:+ c))). rewrite IH. reflexivity.
Qed.













Example VerifyChecksum_match :
  VerifyChecksum toySum ErrDeadlineExceeded
    [checksumSucceeds 1 exampleChecksumBody] (Content [Byte.xab; Byte.x01])
  = (true, None).
Proof. vm_compute. reflexivity. Qed.

(** ** The installer *)

(** The guard of [extractTarball]: an entry whose target does not start
    with the bytes of the install root is refused and nothing is written
    for it. *)
Lemma extractEntry_refuses i e fs :
  HasPrefix (Join [InstallDir i; Name (header e)]) (InstallDir i) = false ->
  extractEntry i e fs
  = (fs, Some (ErrNew ("invalid tar entry (path traversal attempt): " +:+ Name (header e)))).
Proof. intros H. unfold extractEntry. rewrite H. reflexivity. Qed.

Example extractTarball_refuses_parent :
  extractTarball userInstaller neverDone
    (TarStream [mkTarEntry (mkHeader "../../.ssh/authorized_keys" TypeReg 420 "") [] None] None) ∅
  = (∅, Some (ErrNew "invalid tar entry (path traversal attempt): ../../.ssh/authorized_keys")).
Proof. vm_compute. reflexivity. Qed.

(** C1, on the code: the guard of [extractTarball] compares bytes, not
    path elements.  For the install root [/home/u/.local/lib] the entry
    [../lib2/evil] resolves to [/home/u/.local/lib2/evil], which is
    outside the root and starts with the root's bytes: the entry is not
    refused, no error is returned, and the file is written outside the
    install root. *)
Theorem extractTarball_writes_to_sibling :
  Join [InstallDir userInstaller; Name (header siblingEntry)] = "/home/u/.local/lib2/evil"
  /\ insideRoot (InstallDir userInstaller) "/home/u/.local/lib2/evil" = false
  /\ HasPrefix "/home/u/.local/lib2/evil" (InstallDir userInstaller) = true
  /\ snd (extractTarball userInstaller neverDone (TarStream [siblingEntry] None) ∅) = None
  /\ fst (extractTarball userInstaller neverDone (TarStream [siblingEntry] None) ∅)
       !! "/home/u/.local/lib2/evil" = Some (FileNode 420 [Byte.x41]).
Proof. vm_compute. repeat split; reflexivity. Qed.

(** Without the installation directory [removeExisting] returns at
    once, and the disk is as it was. *)
Lemma removeExisting_returns_early i fs :
  IsNotExist (snd (Stat fs (Join [InstallDir i; "go"]))) = true ->
  removeExisting i fs = (fs, None).
Proof. intros H. unfold removeExisting. rewrite H. reflexivity. Qed.

(** C7, on the code: when the installation directory is absent,
    [removeExisting] returns nil before it looks at the bin directory.
    The links [go] and [gofmt] that are there stay, and [Install] then
    fails when it creates its links. *)
Theorem removeExisting_keeps_links_without_dir :
  Stat leftoverLinks (Join [InstallDir userInstaller; "go"])
  = (None, Some (ErrPath "stat" "/home/u/.local/lib/go" ENOENT))
  /\ removeExisting userInstaller leftoverLinks = (leftoverLinks, None)
  /\ fst (removeExisting userInstaller leftoverLinks) !! "/home/u/.local/bin/go"
     = Some (LinkNode "/home/u/.local/lib/go/bin/go")
  /\ fst (removeExisting userInstaller leftoverLinks) !! "/home/u/.local/bin/gofmt"
     = Some (LinkNode "/home/u/.local/lib/go/bin/gofmt")
  /\ snd (Install userInstaller neverDone (TarStream [] None) leftoverLinks)
     = Some (ErrWrap "failed to create symlinks: "
              (ErrWrap "failed to create symlink for go: "
                 (ErrPath "symlink" "/home/u/.local/bin/go" EEXIST))).
Proof. vm_compute. repeat split; reflexivity. Qed.

(** With the installation directory there, the links are removed. *)
Example removeExisting_removes_links_with_dir :
  let fs := <["/home/u/.local/lib/go" := DirNode 493]> leftoverLinks in
  snd (removeExisting userInstaller fs) = None
  /\ fst (removeExisting userInstaller fs) !! "/home/u/.local/bin/go" = None
  /\ fst (removeExisting userInstaller fs) !! "/home/u/.local/bin/gofmt" = None
  /\ fst (removeExisting userInstaller fs) !! "/home/u/.local/lib/go" = None.
Proof. vm_compute. repeat split; reflexivity. Qed.

(** When the subprocess fails, [runGoCommand] returns before it writes
    to the builder. *)
Lemma runGoCommand_error_leaves_builder p output err :
  fst (runGoCommand p output) = Some err -> snd (runGoCommand p output) = output.
Proof.
  unfold runGoCommand.
  destruct (pipeErr p), (startErr p), (readErr p), (ctxWins p), (waitErr p);
    simpl; intros H; try reflexivity; discriminate H.
Qed.

(** The error of [Verify] for a command that ran never has output in
    it: the text before the cause is the same for every subprocess. *)
Lemma Verify_error_text i fs p err :
  IsNotExist (snd (Stat fs (Join [BinDir i; "go"]))) = false ->
  fst (runGoCommand p "") = Some err ->
  Verify i fs p = Some (ErrWrap "Go installation verification failed: : " err).
Proof.
  intros Hstat Hrun. unfold Verify. rewrite Hstat.
  pose proof (runGoCommand_error_leaves_builder p "" err Hrun) as Hout.
  destruct (runGoCommand p "") as [e out]. simpl in Hrun, Hout. subst. reflexivity.
Qed.

(** C9, on the code: the output of the subprocess is written to the
    builder on success only.  For a subprocess that prints [boom] and
    exits with status 1, [Verify] returns an error whose text has the
    empty string where the output should be. *)
Theorem Verify_error_has_no_output :
  string_of_list_byte (outputBytes failingGo) = "boom"
  /\ runGoCommand failingGo "" = (Some (ErrWrap "command failed: " (ErrExit 1)), "")
  /\ Verify userInstaller installedGo failingGo
     = Some (ErrWrap "Go installation verification failed: : "
               (ErrWrap "command failed: " (ErrExit 1))).
Proof. vm_compute. repeat split; reflexivity. Qed.

(** ** The orchestrator *)

(** One case of the run of [app]: the trace is a closed list and every
    part of the statement is decided by it. *)
Ltac pipeline_case :=
  cbn [fst snd negb];
  repeat match goal with
         | |- _ /\ _ => split
         | |- forall _, _ => intro
         | |- _ -> _ => intro
         | H : Some _ = None |- _ => discriminate H
         | H : None = Some _ |- _ => discriminate H
         | H : (_, Some _) = (_, None) |- _ => discriminate H
         | H : (true, _) = (false, _) |- _ => discriminate H
         | H : (false, _) = (true, _) |- _ => discriminate H
         | H : Some _ = Some _ |- _ => injection H as H; subst
         | H : In _ _ |- _ => simpl in H; decompose [or] H; clear H; try discriminate; try contradiction
         end;
  first
    [ reflexivity
    | (eexists; reflexivity)
    | solve [repeat constructor; simpl; intuition discriminate] ].

(** C8: [app] calls resolve, compare, download, verify and install in
    this order and each at most once.  An error of a stage ends the run
    with that error, wrapped; [NeedsUpdate] reporting false ends it with
    nil before [Download]; [VerifyChecksum] reporting false ends it with
    an error before [Install]; and [Install] is reached only after
    [VerifyChecksum] has reported true.  (When [NewInstaller] gives no
    installer the call of [Install] panics, which ends the run as well.) *)
Theorem app_pipeline_order jsonDecode Sum256 readTarball w :
  let run := app jsonDecode Sum256 readTarball w in
  let latest := latestAnswer jsonDecode w in
  let needs := needsAnswer jsonDecode w in
  let dl := fst (downloadAnswer jsonDecode w) in
  let verified := verifyAnswer jsonDecode Sum256 w in
  (exists rest, pipeline = fst run ++ rest)
  /\ List.NoDup (fst run)
  /\ (In CallDownload (fst run) -> snd latest = None /\ needs = (true, None))
  /\ (In CallInstall (fst run) ->
      snd latest = None /\ needs = (true, None) /\ snd dl = None
      /\ verified = (true, None))
  /\ (forall e, snd latest = Some e ->
      run = (firstn 2 pipeline,
             Returned (Some (ErrWrap "failed to get latest version: " e))))
  /\ (snd latest = None ->
      (forall e, snd needs = Some e ->
         run = (firstn 3 pipeline,
                Returned (Some (ErrWrap "failed to check if update is needed: " e))))
      /\ (needs = (false, None) -> run = (firstn 3 pipeline, Returned None))
      /\ (needs = (true, None) ->
          (forall e, snd dl = Some e ->
             run = (firstn 4 pipeline,
                    Returned (Some (ErrWrap "failed to download latest version: " e))))
          /\ (snd dl = None ->
              (forall e, snd verified = Some e ->
                 run = (firstn 5 pipeline,
                        Returned (Some (ErrWrap "failed to verify downloaded version: " e))))
              /\ (verified = (false, None) ->
                  run = (firstn 5 pipeline,
                         Returned (Some (ErrNew "downloaded version could not be verified"))))
              /\ (verified = (true, None) ->
                  fst run = pipeline
                  /\ snd run
                     = match installAnswer jsonDecode readTarball w with
                       | Some (Some e) => Returned (Some (ErrWrap "failed to install Go: " e))
                       | Some None => Returned None
                       | None => Panicked "invalid memory address or nil pointer dereference"
                       end)))).
Proof.
  unfold app, installAnswer, verifyAnswer, downloadedBytes, downloadAnswer,
    needsAnswer, latestAnswer.
  destruct (GetLatestVersion jsonDecode (feedReqErr w) (ctxErr w) (feedAttempts w) [])
    as [[lv [le|]] lg]; cbn [fst snd]; [pipeline_case|].
  destruct (NeedsUpdate (GetInstalledVersion (runtimeVersion w)) lv)
    as [nu [ne|]]; [pipeline_case|].
  destruct nu; cbn [negb]; [|pipeline_case].
  destruct (Download (mkdirTemp w) (createErr w) (ctxErr w) (downloadAttempts w) lv)
    as [[path [de|]] file]; cbn [fst snd]; [pipeline_case|].
  destruct (VerifyChecksum Sum256 (ctxErr w) (checksumAttempts w)
              (reopen w match file with Some f => data f | None => [] end))
    as [ok [ve|]]; [pipeline_case|].
  destruct ok; cbn [negb]; [|pipeline_case].
  destruct (NewInstaller (userCurrent w) (homeEnv w)) as [[inst|] ierr];
    [|pipeline_case].
  destruct (Install inst (ctxDone w)
              (readTarball match file with Some f => data f | None => [] end) (disk w))
    as [fs' [ie|]]; pipeline_case.
Qed.

(** * Further properties of the pipeline *)

(** ** version.go *)

Lemma versionTriple_inv s t :
  versionTriple s = Some t ->
  exists x y z r,
    Split s "." = x :: y :: z :: r
    /\ Atoi x = (fst (fst t), None) /\ Atoi y = (snd (fst t), None)
    /\ Atoi z = (snd t, None).
Proof.
  unfold versionTriple. destruct (Split s ".") as [|x [|y [|z r]]]; try discriminate.
  destruct (Atoi x) as [a [ea|]] eqn:Ex; try discriminate.
  destruct (Atoi y) as [b [eb|]] eqn:Ey; try discriminate.
  destruct (Atoi z) as [c [ec|]] eqn:Ez; try discriminate.
  intros H. injection H as <-. exists x, y, z, r. repeat split; assumption.
Qed.

Lemma NeedsUpdate_triples a b ta tb :
  versionTriple a = Some ta -> versionTriple b = Some tb ->
  NeedsUpdate a b = (lex_lt ta tb, None).
Proof.
  intros Ha Hb.
  destruct (versionTriple_inv _ _ Ha) as (x & y & z & r & Hs & Hx & Hy & Hz).
  destruct (versionTriple_inv _ _ Hb) as (x' & y' & z' & r' & Hs' & Hx' & Hy' & Hz').
  destruct ta as [[a1 a2] a3], tb as [[b1 b2] b3]. simpl in *.
  eapply NeedsUpdate_parsed; eassumption.
Qed.

Lemma lex_lt_irrefl t : lex_lt t t = false.
Proof.
  destruct t as [[a b] c]. unfold lex_lt.
  rewrite !Z.ltb_irrefl, !Z.eqb_refl. reflexivity.
Qed.

Lemma lex_lt_true x y :
  lex_lt x y = true <->
  (fst (fst x) < fst (fst y)
   \/ (fst (fst x) = fst (fst y)
       /\ (snd (fst x) < snd (fst y)
           \/ (snd (fst x) = snd (fst y) /\ snd x < snd y)))).
Proof.
  destruct x as [[a b] c], y as [[d e] f]. unfold lex_lt. simpl.
  rewrite orb_true_iff, andb_true_iff, orb_true_iff, andb_true_iff,
    !Z.ltb_lt, !Z.eqb_eq. reflexivity.
Qed.

Lemma lex_lt_asym x y : lex_lt x y = true -> lex_lt y x = false.
Proof.
  intros H. apply lex_lt_true in H. apply not_true_is_false. intros H'.
  apply lex_lt_true in H'. lia.
Qed.

Lemma lex_lt_trans x y z : lex_lt x y = true -> lex_lt y z = true -> lex_lt x z = true.
Proof.
  intros H1 H2. apply lex_lt_true in H1. apply lex_lt_true in H2.
  apply lex_lt_true. lia.
Qed.

Lemma lex_lt_total x y : lex_lt x y = false -> lex_lt y x = false -> x = y.
Proof.
  intros H1 H2. apply not_true_iff_false in H1. apply not_true_iff_false in H2.
  rewrite lex_lt_true in H1, H2.
  destruct x as [[a b] c], y as [[d e] f]. simpl in H1, H2.
  assert (a = d) by lia. assert (b = e) by lia. assert (c = f) by lia. congruence.
Qed.

(** X1: on versions whose first three elements are integers,
    [NeedsUpdate] is a strict total order on the triples: a version never
    needs an update to itself, two versions never need an update to each
    other, the relation is transitive, and when neither needs an update
    to the other the triples are equal. *)
Theorem NeedsUpdate_strict_total_order a b c ta tb tc :
  versionTriple a = Some ta -> versionTriple b = Some tb ->
  versionTriple c = Some tc ->
  NeedsUpdate a a = (false, None)
  /\ (NeedsUpdate a b = (true, None) -> NeedsUpdate b a = (false, None))
  /\ (NeedsUpdate a b = (true, None) -> NeedsUpdate b c = (true, None) ->
      NeedsUpdate a c = (true, None))
  /\ (NeedsUpdate a b = (false, None) -> NeedsUpdate b a = (false, None) -> ta = tb).
Proof.
  intros Ha Hb Hc.
  rewrite (NeedsUpdate_triples _ _ _ _ Ha Ha), (NeedsUpdate_triples _ _ _ _ Ha Hb),
    (NeedsUpdate_triples _ _ _ _ Hb Ha), (NeedsUpdate_triples _ _ _ _ Hb Hc),
    (NeedsUpdate_triples _ _ _ _ Ha Hc).
  rewrite lex_lt_irrefl. repeat split.
  - intros H. injection H as H. rewrite (lex_lt_asym _ _ H). reflexivity.
  - intros H1 H2. injection H1 as H1. injection H2 as H2.
    rewrite (lex_lt_trans _ _ _ H1 H2). reflexivity.
  - intros H1 H2. injection H1 as H1. injection H2 as H2.
    exact (lex_lt_total _ _ H1 H2).
Qed.

Lemma NeedsUpdate_strict_total_order_witness :
  versionTriple "1.23.7" = Some (1, 23, 7)
  /\ versionTriple "1.24.1" = Some (1, 24, 1)
  /\ versionTriple "2.0.0" = Some (2, 0, 0)
  /\ NeedsUpdate "1.23.7" "1.23.7" = (false, None)
  /\ (NeedsUpdate "1.23.7" "1.24.1" = (true, None) ->
      NeedsUpdate "1.24.1" "1.23.7" = (false, None))
  /\ (NeedsUpdate "1.23.7" "1.24.1" = (true, None) ->
      NeedsUpdate "1.24.1" "2.0.0" = (true, None) ->
      NeedsUpdate "1.23.7" "2.0.0" = (true, None))
  /\ (NeedsUpdate "1.23.7" "1.24.1" = (false, None) ->
      NeedsUpdate "1.24.1" "1.23.7" = (false, None) -> (1, 23, 7) = (1, 24, 1)).
Proof.
  split; [reflexivity|]. split; [reflexivity|]. split; [reflexivity|].
  exact (NeedsUpdate_strict_total_order "1.23.7" "1.24.1" "2.0.0"
           (1, 23, 7) (1, 24, 1) (2, 0, 0) eq_refl eq_refl eq_refl).
Defined.

(** X2: [NeedsUpdate] never answers true together with an error: with
    every error the boolean is false. *)
Theorem NeedsUpdate_error_is_false installed latest :
  snd (NeedsUpdate installed latest) <> None ->
  fst (NeedsUpdate installed latest) = false.
Proof.
  unfold NeedsUpdate.
  destruct (String.eqb installed ""); [intros H; contradiction H; reflexivity|].
  destruct ((length (Split installed ".") <? 3)%nat || (length (Split latest ".") <? 3)%nat);
    [reflexivity|].
  repeat match goal with
         | |- context [Atoi ?x] =>
             let v := fresh "v" in
             let e := fresh "e" in
             destruct (Atoi x) as [v [e|]]
         | |- context [if ?c then _ else _] => destruct c
         | |- snd (_, None) <> None -> _ => intros H; contradiction H; reflexivity
         | |- _ -> fst (false, _) = false => reflexivity
         end.
Qed.

Lemma NeedsUpdate_error_is_false_witness :
  snd (NeedsUpdate "1.a.1" "1.17.1") <> None
  /\ fst (NeedsUpdate "1.a.1" "1.17.1") = false.
Proof.
  split; [vm_compute; discriminate|].
  apply (NeedsUpdate_error_is_false "1.a.1" "1.17.1"). vm_compute. discriminate.
Defined.

(** X3: when the installed version is not empty and [NeedsUpdate]
    returns no error, both strings have at least three dot-separated
    elements and the first element of each is an integer: a version of
    two elements such as [1.24] is never compared. *)
Theorem NeedsUpdate_nil_error_inv installed latest :
  installed <> "" ->
  snd (NeedsUpdate installed latest) = None ->
  (3 <= length (Split installed "."))%nat
  /\ (3 <= length (Split latest "."))%nat
  /\ snd (Atoi (at_index (Split installed ".") 0)) = None
  /\ snd (Atoi (at_index (Split latest ".") 0)) = None.
Proof.
  intros Hne. unfold NeedsUpdate.
  destruct (String.eqb_spec installed ""); [contradiction|].
  destruct (Nat.ltb_spec (length (Split installed ".")) 3);
    [simpl; discriminate|].
  destruct (Nat.ltb_spec (length (Split latest ".")) 3);
    [simpl; discriminate|].
  cbn [orb].
  destruct (Atoi (at_index (Split installed ".") 0)) as [a [ea|]]; [simpl; discriminate|].
  destruct (Atoi (at_index (Split latest ".") 0)) as [d [ed|]]; [simpl; discriminate|].
  intros _. repeat split; assumption.
Qed.

Lemma NeedsUpdate_nil_error_inv_witness :
  "1.23.7" <> ""
  /\ snd (NeedsUpdate "1.23.7" "1.24.1") = None
  /\ (3 <= length (Split "1.23.7" "."))%nat.
Proof.
  split; [discriminate|]. split; [reflexivity|].
  exact (proj1 (NeedsUpdate_nil_error_inv "1.23.7" "1.24.1" ltac:(discriminate) eq_refl)).
Defined.

Example NeedsUpdate_two_elements :
  NeedsUpdate "1.23.7" "1.24"
  = (false, Some (ErrNew "invalid version format: versions must be in the format X.Y.Z")).
Proof. vm_compute. reflexivity. Qed.

Lemma TrimPrefix_restore s p : HasPrefix s p = true -> p +:+ TrimPrefix s p = s.
Proof.
  intros H. unfold TrimPrefix. rewrite H. revert s H.
  induction p as [|b p IH]; intros s H; [reflexivity|].
  destruct s as [|a s]; [discriminate H|].
  simpl in H. apply andb_true_iff in H as [Hab Hp].
  apply Ascii.eqb_eq in Hab. subst b.
  change (String a (p +:+ drop_bytes (String.length p) s) = String a s).
  rewrite (IH _ Hp). reflexivity.
Qed.

Lemma firstStable_In releases v :
  firstStable releases = (v, None) ->
  exists r, In r releases /\ Stable r = true /\ Version r = "go" +:+ v.
Proof.
  induction releases as [|r rest IH]; [discriminate|].
  change (firstStable (r :: rest))
    with (if stableGo r then (TrimPrefix (Version r) "go", None) else firstStable rest).
  destruct (stableGo r) eqn:E.
  - intros H. injection H as <-. exists r.
    unfold stableGo in E. apply andb_true_iff in E as [Hs Hp].
    split; [left; reflexivity|]. split; [exact Hs|].
    symmetry. apply TrimPrefix_restore, Hp.
  - intros H. destruct (IH H) as (r' & Hin & Hr'). exists r'. split; [right; exact Hin | exact Hr'].
Qed.

(** X4: a version that [GetLatestVersion] returns comes from the feed:
    the decoded feed has an entry that is stable and whose identifier is
    [go] followed by the version returned. *)
Theorem GetLatestVersion_returns_feed_entry
    jsonDecode reqErr ctxErr attempts log v log' :
  GetLatestVersion jsonDecode reqErr ctxErr attempts log = ((v, None), log') ->
  exists releases r,
    fst (getReleasesWithRetry jsonDecode ctxErr attempts log) = (releases, None)
    /\ In r releases /\ Stable r = true /\ Version r = "go" +:+ v.
Proof.
  unfold GetLatestVersion. destruct reqErr as [e|]; [discriminate|].
  destruct (getReleasesWithRetry jsonDecode ctxErr attempts log) as [[releases [e|]] lg];
    [discriminate|].
  intros H. injection H as H _.
  destruct (firstStable_In _ _ H) as (r & Hr).
  exists releases, r. split; [reflexivity | exact Hr].
Qed.

Lemma GetLatestVersion_returns_feed_entry_witness :
  GetLatestVersion exampleDecode None ErrDeadlineExceeded exampleAttempts []
  = (("1.17.1", None), [])
  /\ exists releases r,
       fst (getReleasesWithRetry exampleDecode ErrDeadlineExceeded exampleAttempts [])
       = (releases, None)
       /\ In r releases /\ Stable r = true /\ Version r = "go" +:+ "1.17.1".
Proof.
  split; [reflexivity|].
  exact (GetLatestVersion_returns_feed_entry exampleDecode None ErrDeadlineExceeded
           exampleAttempts [] "1.17.1" [] eq_refl).
Defined.

Lemma roundTripFails_retries rt v :
  roundTripFails rt = true ->
  releasesAttempt rt v
  = ((false, None), mkFetchVars (Some (roundTripError rt)) (body v)).
Proof.
  destruct rt as [e|code b]; simpl; [reflexivity|].
  intros ->. reflexivity.
Qed.

Lemma releases_fold_failures pre v :
  forallb roundTripFails pre = true ->
  fold_left (fun s a => snd (releasesAttempt a s)) pre v
  = mkFetchVars (match last (map roundTripError pre) with
                 | Some e => Some e
                 | None => lastErrSeen v
                 end) (body v).
Proof.
  revert v. induction pre as [|a pre IH]; intros v H.
  - destruct v; reflexivity.
  - simpl in H. apply andb_true_iff in H as [Ha Hpre].
    cbn [fold_left]. rewrite (roundTripFails_retries _ _ Ha). cbn [snd].
    rewrite (IH _ Hpre). cbn [lastErrSeen body map].
    destruct pre as [|b pre']; [reflexivity|].
    cbn [map last].
    destruct (last (roundTripError b :: map roundTripError pre')) eqn:L; [reflexivity|].
    apply last_None in L. discriminate L.
Qed.

(** X5: when every attempt of [getReleasesWithRetry] fails, the error
    returned wraps the error of the last attempt (the transport error,
    or the status code that was not 200), not the error of the deadline,
    and no release is returned. *)
Theorem getReleasesWithRetry_reports_last_error
    jsonDecode ctxErr pre final log :
  forallb roundTripFails (pre ++ [final]) = true ->
  fst (getReleasesWithRetry jsonDecode ctxErr (pre ++ [final]) log)
  = ([], Some (ErrWrap "failed to fetch version info: " (roundTripError final))).
Proof.
  intros H. unfold getReleasesWithRetry.
  rewrite <- (app_nil_r (pre ++ [final])), poll_skip.
  - rewrite (releases_fold_failures _ _ H). cbn [poll lastErrSeen body].
    rewrite map_app. cbn [map]. rewrite last_snoc. reflexivity.
  - intros a s Hin. rewrite forallb_forall in H.
    rewrite (roundTripFails_retries _ _ (H a Hin)). reflexivity.
Qed.

Lemma getReleasesWithRetry_reports_last_error_witness :
  forallb roundTripFails
    ([DoFails (ErrTransport "connection refused")] ++ [DoReturns 503 (mkBody 0 [] None)])
  = true
  /\ fst (getReleasesWithRetry exampleDecode ErrDeadlineExceeded
            ([DoFails (ErrTransport "connection refused")]
             ++ [DoReturns 503 (mkBody 0 [] None)]) [])
     = ([], Some (ErrWrap "failed to fetch version info: " (ErrStatus 503))).
Proof.
  split; [reflexivity|].
  exact (getReleasesWithRetry_reports_last_error exampleDecode ErrDeadlineExceeded
           [DoFails (ErrTransport "connection refused")]
           (DoReturns 503 (mkBody 0 [] None)) [] eq_refl).
Defined.

(** X6: the first attempt answered with status 200 decides the result
    of [getReleasesWithRetry]: the releases decoded from its body, or the
    decoder's error wrapped.  The failures before it and whatever would
    have come after it do not show in the result. *)
Theorem getReleasesWithRetry_first_success_decides
    jsonDecode ctxErr pre id bytes berr post log :
  forallb roundTripFails pre = true ->
  fst (getReleasesWithRetry jsonDecode ctxErr
         (pre ++ DoReturns StatusOK (mkBody id bytes berr) :: post) log)
  = match jsonDecode (mkBody id bytes berr) with
    | (_, Some err) => ([], Some (ErrWrap "failed to parse version info: " err))
    | (releases, None) => (releases, None)
    end.
Proof.
  intros H. unfold getReleasesWithRetry. rewrite poll_skip.
  - rewrite (releases_fold_failures _ _ H), poll_cons. cbn.
    destruct (jsonDecode (mkBody id bytes berr)) as [rs [e|]]; reflexivity.
  - intros a s Hin. rewrite forallb_forall in H.
    rewrite (roundTripFails_retries _ _ (H a Hin)). reflexivity.
Qed.

Lemma getReleasesWithRetry_first_success_decides_witness :
  forallb roundTripFails [DoReturns 503 (mkBody 0 [] None)] = true
  /\ fst (getReleasesWithRetry exampleDecode ErrDeadlineExceeded
            ([DoReturns 503 (mkBody 0 [] None)]
             ++ DoReturns StatusOK (mkBody 1 [] None)
                :: [DoFails (ErrTransport "never sent")]) [])
     = (exampleFeed, None).
Proof.
  split; [reflexivity|].
  exact (getReleasesWithRetry_first_success_decides exampleDecode ErrDeadlineExceeded
           [DoReturns 503 (mkBody 0 [] None)] 1%nat [] None
           [DoFails (ErrTransport "never sent")] [] eq_refl).
Defined.

(** ** download.go *)

Lemma downloadRetryable_step a v :
  downloadRetryable a = true ->
  downloadAttempt a v
  = ((false, None),
     mkDownloadVars (mkFile (downloadAttemptBytes a) (length (downloadAttemptBytes a)))
                    (Some (downloadAttemptError a))).
Proof.
  destruct a as [e|e|e|[e|code b]]; simpl; try discriminate; [reflexivity|].
  destruct (code =? StatusOK); simpl.
  - destruct (body_err b) as [e|]; [|discriminate]. intros _.
    unfold copyBody. rewrite Truncate_Seek_empty, Write_empty. reflexivity.
  - intros _. destruct (body_err b); reflexivity.
Qed.

Lemma download_fold_failures pre v :
  forallb downloadRetryable pre = true ->
  fold_left (fun s a => snd (downloadAttempt a s)) pre v
  = match last pre with
    | Some a =>
        mkDownloadVars (mkFile (downloadAttemptBytes a) (length (downloadAttemptBytes a)))
                       (Some (downloadAttemptError a))
    | None => v
    end.
Proof.
  revert v. induction pre as [|a pre IH]; intros v H; [reflexivity|].
  simpl in H. apply andb_true_iff in H as [Ha Hpre].
  cbn [fold_left]. rewrite (downloadRetryable_step _ _ Ha). cbn [snd].
  rewrite (IH _ Hpre). destruct pre as [|b pre']; [reflexivity|].
  cbn [last]. destruct (last (b :: pre')) eqn:L; [reflexivity|].
  apply last_None in L. discriminate L.
Qed.

(** X7: when every attempt of [Download] is one that is retried, the
    call returns the empty path and an error that wraps the error of the
    last attempt, and the file it leaves behind holds what that last
    attempt copied, which can be a part of a body. *)
Theorem Download_reports_last_error tmpDir ctxErr pre final version :
  forallb downloadRetryable (pre ++ [final]) = true ->
  Download (tmpDir, None) None ctxErr (pre ++ [final]) version
  = (("", Some (ErrWrap "download failed with: " (downloadAttemptError final))),
     Some (mkFile (downloadAttemptBytes final) (length (downloadAttemptBytes final)))).
Proof.
  intros H. unfold Download.
  rewrite <- (app_nil_r (pre ++ [final])), poll_skip.
  - rewrite (download_fold_failures _ _ H), last_snoc. reflexivity.
  - intros a s Hin. rewrite forallb_forall in H.
    rewrite (downloadRetryable_step _ _ (H a Hin)). reflexivity.
Qed.

Lemma Download_reports_last_error_witness :
  forallb downloadRetryable
    ([Sent (DoFails (ErrTransport "connection reset"))]
     ++ [Sent (DoReturns 200 (mkBody 0 [Byte.x41; Byte.x42] (Some (ErrRead "unexpected EOF"))))])
  = true
  /\ Download ("/tmp/goupdate-1", None) None ErrDeadlineExceeded
       ([Sent (DoFails (ErrTransport "connection reset"))]
        ++ [Sent (DoReturns 200 (mkBody 0 [Byte.x41; Byte.x42] (Some (ErrRead "unexpected EOF"))))])
       "1.24.1"
     = (("", Some (ErrWrap "download failed with: "
                    (ErrWrap "failed to copy response body: " (ErrRead "unexpected EOF")))),
        Some (mkFile [Byte.x41; Byte.x42] 2)).
Proof.
  split; [reflexivity|].
  exact (Download_reports_last_error "/tmp/goupdate-1" ErrDeadlineExceeded
           [Sent (DoFails (ErrTransport "connection reset"))]
           (Sent (DoReturns 200 (mkBody 0 [Byte.x41; Byte.x42] (Some (ErrRead "unexpected EOF")))))
           "1.24.1" eq_refl).
Defined.

Lemma downloadFatal_step a v :
  downloadFatal a = true ->
  fst (downloadAttempt a v) = (false, Some (downloadAttemptError a))
  /\ dl_lastSeenErr (snd (downloadAttempt a v)) = dl_lastSeenErr v.
Proof. destruct a as [e|e|e|rt]; simpl; try discriminate; intros _; split; reflexivity. Qed.

(** X8: a failing seek, truncate or request construction ends the
    polling of [Download] at once: no later attempt is made.  The error
    returned is the one of that call only when no earlier attempt was
    retried; after a retried attempt it is the error of the last retried
    attempt that is reported. *)
Theorem Download_fatal_ends_polling tmpDir ctxErr pre fatal post version :
  forallb downloadRetryable pre = true ->
  downloadFatal fatal = true ->
  fst (Download (tmpDir, None) None ctxErr (pre ++ fatal :: post) version)
  = ("", Some (match last pre with
               | Some a => ErrWrap "download failed with: " (downloadAttemptError a)
               | None => ErrWrap "download failed after retries: " (downloadAttemptError fatal)
               end)).
Proof.
  intros Hpre Hf. unfold Download. rewrite poll_skip.
  - rewrite (download_fold_failures _ _ Hpre), poll_cons.
    set (v := match last pre with Some a => _ | None => _ end).
    destruct (downloadFatal_step fatal v Hf) as [H1 H2].
    destruct (downloadAttempt fatal v) as [[ok err] v']. simpl in H1, H2.
    injection H1 as -> ->. subst v.
    destruct (last pre); simpl in H2; rewrite H2; reflexivity.
  - intros a s Hin. rewrite forallb_forall in Hpre.
    rewrite (downloadRetryable_step _ _ (Hpre a Hin)). reflexivity.
Qed.

Lemma Download_fatal_ends_polling_witness :
  forallb downloadRetryable [Sent (DoReturns 503 (mkBody 0 [] None))] = true
  /\ downloadFatal (SeekFails (ErrPath "seek" "/tmp/goupdate-1/go1.24.1.linux-amd64.tar.gz" "bad file descriptor")) = true
  /\ fst (Download ("/tmp/goupdate-1", None) None ErrDeadlineExceeded
            ([Sent (DoReturns 503 (mkBody 0 [] None))]
             ++ SeekFails (ErrPath "seek" "/tmp/goupdate-1/go1.24.1.linux-amd64.tar.gz" "bad file descriptor")
                :: [downloadSucceeds 1 [Byte.x43]]) "1.24.1")
     = ("", Some (ErrWrap "download failed with: " (ErrStatus 503))).
Proof.
  split; [reflexivity|]. split; [reflexivity|].
  exact (Download_fatal_ends_polling "/tmp/goupdate-1" ErrDeadlineExceeded
           [Sent (DoReturns 503 (mkBody 0 [] None))]
           (SeekFails (ErrPath "seek" "/tmp/goupdate-1/go1.24.1.linux-amd64.tar.gz" "bad file descriptor"))
           [downloadSucceeds 1 [Byte.x43]] "1.24.1" eq_refl eq_refl).
Defined.

Lemma Clean_not_empty p : Clean p <> "".
Proof.
  unfold Clean. destruct (String.eqb p ""); [discriminate|].
  destruct (IsAbs p); [discriminate|].
  destruct (String.eqb_spec
              (join_with "/" (rev (fold_left (clean_step false) (Split p "/") []))) "");
    [discriminate | assumption].
Qed.

(** X9: [Download] returns a path exactly when it returns no error: the
    path is empty with every error and never empty without one. *)
Theorem Download_path_iff_no_error mkdirTemp createErr ctxErr attempts version :
  snd (fst (Download mkdirTemp createErr ctxErr attempts version)) = None
  <-> fst (fst (Download mkdirTemp createErr ctxErr attempts version)) <> "".
Proof.
  unfold Download. destruct mkdirTemp as [tmpDir [e|]]; [simpl; split; [discriminate | congruence]|].
  destruct createErr as [e|]; [simpl; split; [discriminate | congruence]|].
  destruct (poll downloadAttempt ctxErr attempts (mkDownloadVars (mkFile [] 0) None))
    as [[e|] v].
  - destruct (dl_lastSeenErr v); simpl; split; solve [discriminate | congruence].
  - simpl. split; [|reflexivity]. intros _.
    destruct (String.eqb tmpDir ""); apply Clean_not_empty.
Qed.

(** ** The checksum *)





Example checksumToken_layouts :
  checksumToken "ab12  go1.24.1.linux-amd64.tar.gz" = "ab12"
  /\ checksumToken (String "010" "ab12" +:+ String "010" "") = "ab12"
  /\ checksumToken "ab12" = "ab12"
  /\ checksumToken "   " = "".
Proof. vm_compute. repeat split; reflexivity. Qed.






Lemma hex_roundtrip_byte b :
  Byte.of_N (16 * hexValue (hexDigit (Byte.to_N b / 16))
             + hexValue (hexDigit (Byte.to_N b mod 16))) = Some b.
Proof. destruct b; vm_compute; reflexivity. Qed.

Lemma hex_digits_lower b :
  isLowerHex (hexDigit (Byte.to_N b / 16)) = true
  /\ isLowerHex (hexDigit (Byte.to_N b mod 16)) = true.
Proof. destruct b; vm_compute; split; reflexivity. Qed.

Lemma DecodeString_EncodeToString l : DecodeString (EncodeToString l) = l.
Proof.
  induction l as [|b l IH]; [reflexivity|].
  cbn [EncodeToString DecodeString]. rewrite hex_roundtrip_byte, IH. reflexivity.
Qed.

(** X12: the text [calculateChecksum] returns for a file that is read
    is two lower-case hexadecimal digits per byte of the digest, and
    decoding it gives the digest back: two files get the same text
    exactly when their digests are equal. *)
Theorem calculateChecksum_hex Sum256 a b :
  String.length (fst (calculateChecksum Sum256 (Content a)))
     = (2 * length (Sum256 a))%nat
  /\ allLowerHex (fst (calculateChecksum Sum256 (Content a))) = true
  /\ DecodeString (fst (calculateChecksum Sum256 (Content a))) = Sum256 a
  /\ (calculateChecksum Sum256 (Content a) = calculateChecksum Sum256 (Content b)
      <-> Sum256 a = Sum256 b).
Proof.
  simpl. repeat split.
  - induction (Sum256 a) as [|x l IH]; [reflexivity|].
    cbn [EncodeToString String.length length]. rewrite IH. lia.
  - induction (Sum256 a) as [|x l IH]; [reflexivity|].
    cbn [EncodeToString allLowerHex].
    destruct (hex_digits_lower x) as [-> ->]. exact IH.
  - apply DecodeString_EncodeToString.
  - intros H. injection H as H.
    rewrite <- (DecodeString_EncodeToString (Sum256 a)), H.
    apply DecodeString_EncodeToString.
  - intros ->. reflexivity.
Qed.

(** ** installer.go *)

(** X13: [NewInstaller] returns either an installer or an error, never
    both and never neither; it fails exactly when [user.Current] fails
    and [$HOME] is empty. *)
Theorem NewInstaller_installer_xor_error userCurrent homeEnv :
  (fst (NewInstaller userCurrent homeEnv) = None
   <-> snd (NewInstaller userCurrent homeEnv) <> None)
  /\ (fst (NewInstaller userCurrent homeEnv) = None
      <-> snd userCurrent <> None /\ homeEnv = "").
Proof.
  unfold NewInstaller. destruct userCurrent as [h [e|]]; simpl.
  - destruct (String.eqb_spec homeEnv ""); simpl.
    + repeat split; try discriminate; auto.
    + repeat split; try discriminate; try congruence.
      * intros [_ H]. contradiction.
  - repeat split; try discriminate; try congruence. intros [H _]. congruence.
Qed.

(** X14: [runGoCommand] writes to the builder only when the command
    succeeded: then the whole output is appended, and with every error
    the builder is left as it was. *)
Theorem runGoCommand_writes_only_on_success p output :
  (fst (runGoCommand p output) = None ->
   snd (runGoCommand p output) = output +:+ string_of_list_byte (outputBytes p))
  /\ (fst (runGoCommand p output) <> None -> snd (runGoCommand p output) = output).
Proof.
  unfold runGoCommand.
  destruct (pipeErr p), (startErr p), (readErr p), (ctxWins p), (waitErr p);
    simpl; split; intros H; try reflexivity; try discriminate H; congruence.
Qed.

(** X15: [Verify] returns nil exactly when the link to [go] leads to a
    file and the subprocess was started, was read, ended before the
    deadline and ended with status zero. *)
Theorem Verify_nil_iff i fs p :
  Verify i fs p = None
  <-> IsNotExist (snd (Stat fs (Join [BinDir i; "go"]))) = false
      /\ pipeErr p = None /\ startErr p = None /\ readErr p = None
      /\ ctxWins p = None /\ waitErr p = None.
Proof.
  unfold Verify, runGoCommand.
  destruct (IsNotExist (snd (Stat fs (Join [BinDir i; "go"])))).
  { split; [discriminate | intros [H _]; discriminate H]. }
  destruct (pipeErr p), (startErr p), (readErr p), (ctxWins p), (waitErr p);
    simpl; split; try discriminate; try (intros; reflexivity);
    try (intros (_ & H1 & H2 & H3 & H4 & H5); discriminate);
    intros _; repeat split; reflexivity.
Qed.

Lemma extractLoop_cons i ctxDone n e rest tail fs :
  extractLoop i ctxDone n (e :: rest) tail fs
  = match ctxDone n with
    | Some cerr => (fs, Some (ErrWrap "extraction cancelled: " cerr))
    | None =>
        match extractEntry i e fs with
        | (fs1, Some err) => (fs1, Some err)
        | (fs1, None) => extractLoop i ctxDone (S n) rest tail fs1
        end
    end.
Proof. reflexivity. Qed.

Lemma extractLoop_nil i ctxDone n tail fs :
  extractLoop i ctxDone n [] tail fs
  = match ctxDone n with
    | Some cerr => (fs, Some (ErrWrap "extraction cancelled: " cerr))
    | None =>
        match tail with
        | None => (fs, None)
        | Some err => (fs, Some (ErrWrap "failed to read tar header: " err))
        end
    end.
Proof. reflexivity. Qed.

Lemma extractLoop_app i ctxDone n pre rest tail fs fs1 :
  extractLoop i ctxDone n pre None fs = (fs1, None) ->
  extractLoop i ctxDone n (pre ++ rest) tail fs
  = extractLoop i ctxDone (n + length pre) rest tail fs1
  /\ ctxDone (n + length pre)%nat = None.
Proof.
  revert n fs. induction pre as [|e pre IH]; intros n fs H.
  - rewrite extractLoop_nil in H. destruct (ctxDone n) eqn:C; [discriminate H|].
    injection H as ->. simpl. rewrite Nat.add_0_r. split; [reflexivity | exact C].
  - rewrite extractLoop_cons in H. change ((e :: pre) ++ rest) with (e :: (pre ++ rest)).
    rewrite extractLoop_cons.
    destruct (ctxDone n); [discriminate H|].
    destruct (extractEntry i e fs) as [fs' [err|]]; [discriminate H|].
    cbn [length]. rewrite Nat.add_succ_r. exact (IH _ _ H).
Qed.

(** X16: [extractTarball] stops at the first entry that its guard
    refuses: the entries after it are not read, the error names the
    entry, and what the entries before it wrote stays on the disk. *)
Theorem extractTarball_stops_at_refused_entry i ctxDone pre bad post tail fs fs1 :
  extractTarball i ctxDone (TarStream pre None) fs = (fs1, None) ->
  HasPrefix (Join [InstallDir i; Name (header bad)]) (InstallDir i) = false ->
  extractTarball i ctxDone (TarStream (pre ++ bad :: post) tail) fs
  = (fs1, Some (ErrNew ("invalid tar entry (path traversal attempt): "
                        +:+ Name (header bad)))).
Proof.
  intros Hpre Hbad. cbn [extractTarball] in *.
  destruct (extractLoop_app _ _ _ _ (bad :: post) tail _ _ Hpre) as [-> Hc].
  rewrite extractLoop_cons, Hc, (extractEntry_refuses _ _ _ Hbad). reflexivity.
Qed.

Lemma extractTarball_stops_at_refused_entry_witness :
  extractTarball userInstaller neverDone
    (TarStream [mkTarEntry (mkHeader "go/VERSION" TypeReg 420 "") [Byte.x41] None] None) ∅
  = (<["/home/u/.local/lib/go/VERSION" := FileNode 420 [Byte.x41]]>
     (<["/home/u/.local/lib/go" := DirNode 493]>
     (<["/home/u/.local/lib" := DirNode 493]>
     (<["/home/u/.local" := DirNode 493]>
     (<["/home/u" := DirNode 493]>
     (<["/home" := DirNode 493]> ∅))))), None)
  /\ snd (extractTarball userInstaller neverDone
       (TarStream ([mkTarEntry (mkHeader "go/VERSION" TypeReg 420 "") [Byte.x41] None]
                   ++ mkTarEntry (mkHeader "../../.ssh/authorized_keys" TypeReg 420 "") [] None
                      :: [mkTarEntry (mkHeader "go/bin/go" TypeReg 493 "") [] None]) None) ∅)
     = Some (ErrNew "invalid tar entry (path traversal attempt): ../../.ssh/authorized_keys").
Proof.
  assert (H : extractTarball userInstaller neverDone
    (TarStream [mkTarEntry (mkHeader "go/VERSION" TypeReg 420 "") [Byte.x41] None] None) ∅
  = (<["/home/u/.local/lib/go/VERSION" := FileNode 420 [Byte.x41]]>
     (<["/home/u/.local/lib/go" := DirNode 493]>
     (<["/home/u/.local/lib" := DirNode 493]>
     (<["/home/u/.local" := DirNode 493]>
     (<["/home/u" := DirNode 493]>
     (<["/home" := DirNode 493]> ∅))))), None)) by (vm_compute; reflexivity).
  split; [exact H|].
  rewrite (extractTarball_stops_at_refused_entry userInstaller neverDone _
             (mkTarEntry (mkHeader "../../.ssh/authorized_keys" TypeReg 420 "") [] None)
             _ None ∅ _ H eq_refl).
  reflexivity.
Defined.

Lemma extractLoop_cancelled i ctxDone e tail fs1 k :
  forall entries n m fs,
    (k <= length entries)%nat ->
    (forall j, (j < k)%nat -> ctxDone (n + j)%nat = None) ->
    ctxDone (n + k)%nat = Some e ->
    extractLoop i neverDone m (firstn k entries) None fs = (fs1, None) ->
    extractLoop i ctxDone n entries tail fs
    = (fs1, Some (ErrWrap "extraction cancelled: " e)).
Proof.
  induction k as [|k IH]; intros entries n m fs Hlen Hbefore Hk Hrun.
  - rewrite Nat.add_0_r in Hk. cbn [firstn] in Hrun. rewrite extractLoop_nil in Hrun.
    cbn in Hrun. injection Hrun as ->.
    destruct entries; [rewrite extractLoop_nil | rewrite extractLoop_cons];
      rewrite Hk; reflexivity.
  - destruct entries as [|x xs]; [simpl in Hlen; lia|].
    cbn [firstn] in Hrun. rewrite extractLoop_cons in Hrun. cbn [neverDone] in Hrun.
    rewrite extractLoop_cons.
    pose proof (Hbefore 0%nat ltac:(lia)) as H0. rewrite Nat.add_0_r in H0. rewrite H0.
    destruct (extractEntry i x fs) as [fs' [err|]]; [discriminate Hrun|].
    apply (IH xs (S n) (S m) fs').
    + simpl in Hlen. lia.
    + intros j Hj. rewrite Nat.add_succ_l, <- Nat.add_succ_r. apply Hbefore. lia.
    + rewrite Nat.add_succ_l, <- Nat.add_succ_r. exact Hk.
    + exact Hrun.
Qed.

(** X17: [extractTarball] looks at the context before every entry.
    When the context is done for the first time before entry number [k],
    the first [k] entries have been extracted as without cancellation,
    the others are not read, and the error is the context's, wrapped. *)
Theorem extractTarball_cancelled_between_entries i ctxDone entries tail fs k e fs1 :
  (k <= length entries)%nat ->
  (forall j, (j < k)%nat -> ctxDone j = None) ->
  ctxDone k = Some e ->
  extractTarball i neverDone (TarStream (firstn k entries) None) fs = (fs1, None) ->
  extractTarball i ctxDone (TarStream entries tail) fs
  = (fs1, Some (ErrWrap "extraction cancelled: " e)).
Proof.
  intros Hlen Hbefore Hk Hrun. cbn [extractTarball] in *.
  exact (extractLoop_cancelled i ctxDone e tail fs1 k entries 0%nat 0%nat fs
           Hlen Hbefore Hk Hrun).
Qed.

Lemma extractTarball_cancelled_between_entries_witness :
  (1 <= length [versionEntry; goBinaryEntry])%nat
  /\ doneAfterOne 1 = Some ErrDeadlineExceeded
  /\ snd (extractTarball userInstaller doneAfterOne
            (TarStream [versionEntry; goBinaryEntry] None) ∅)
     = Some (ErrWrap "extraction cancelled: " ErrDeadlineExceeded)
  /\ fst (extractTarball userInstaller doneAfterOne
            (TarStream [versionEntry; goBinaryEntry] None) ∅)
     = fst (extractTarball userInstaller neverDone (TarStream [versionEntry] None) ∅).
Proof.
  split; [simpl; lia|]. split; [reflexivity|].
  assert (H : extractTarball userInstaller neverDone
                (TarStream (firstn 1 [versionEntry; goBinaryEntry]) None) ∅
              = (fst (extractTarball userInstaller neverDone
                        (TarStream [versionEntry] None) ∅), None))
    by (vm_compute; reflexivity).
  assert (Hb : forall j, (j < 1)%nat -> doneAfterOne j = None)
    by (intros j Hj; destruct j; [reflexivity | lia]).
  rewrite (extractTarball_cancelled_between_entries userInstaller doneAfterOne
             [versionEntry; goBinaryEntry] None ∅ 1%nat ErrDeadlineExceeded _
             ltac:(simpl; lia) Hb eq_refl H).
  split; reflexivity.
Defined.

(** ** Cleaned paths *)

Lemma ordinary_inv e :
  ordinary e = true ->
  e <> "" /\ e <> "." /\ e <> ".." /\ has_byte "/" e = false.
Proof.
  unfold ordinary. rewrite !andb_true_iff, !negb_true_iff.
  intros [[[H1 H2] H3] H4].
  apply String.eqb_neq in H1. apply String.eqb_neq in H2. apply String.eqb_neq in H3.
  auto.
Qed.

Lemma clean_step_ordinary r out e :
  ordinary e = true -> clean_step r out e = e :: out.
Proof.
  intros H. apply ordinary_inv in H as (H1 & H2 & H3 & _).
  unfold clean_step. apply String.eqb_neq in H1. apply String.eqb_neq in H2.
  apply String.eqb_neq in H3. rewrite H1, H2, H3. reflexivity.
Qed.

Lemma fold_clean_ordinary r m out :
  forallb ordinary m = true ->
  fold_left (clean_step r) m out = rev m ++ out.
Proof.
  revert out. induction m as [|e m IH]; intros out H; [reflexivity|].
  simpl in H. apply andb_true_iff in H as [He Hm].
  cbn [fold_left]. rewrite (clean_step_ordinary _ _ _ He), (IH _ Hm).
  cbn [rev]. rewrite <- app_assoc. reflexivity.
Qed.

Lemma repeat_snoc {A} (x : A) k : repeat x k ++ [x] = x :: repeat x k.
Proof. induction k as [|k IH]; [reflexivity|]. simpl. rewrite IH. reflexivity. Qed.

Lemma rev_repeat' {A} (x : A) k : rev (repeat x k) = repeat x k.
Proof.
  induction k as [|k IH]; [reflexivity|]. simpl. rewrite IH. apply repeat_snoc.
Qed.

Lemma fold_clean_dots k j :
  fold_left (clean_step false) (repeat ".." k) (repeat ".." j) = repeat ".." (k + j).
Proof.
  revert j. induction k as [|k IH]; intros j; [reflexivity|].
  cbn [repeat fold_left].
  replace (clean_step false (repeat ".." j) "..") with (repeat ".." (S j)).
  - rewrite IH. f_equal. lia.
  - destruct j; reflexivity.
Qed.

(** Folding [clean_step] over the elements of a cleaned path keeps them
    all. *)
Lemma fold_clean_elems r l :
  cleanElems r l -> fold_left (clean_step r) l [] = rev l.
Proof.
  intros (k & m & -> & Hm & Hr). rewrite fold_left_app, rev_app_distr, rev_repeat'.
  destruct r.
  - rewrite (Hr eq_refl). cbn [repeat fold_left]. apply fold_clean_ordinary, Hm.
  - change (@nil string) with (repeat ".." 0) at 1.
    rewrite fold_clean_dots, Nat.add_0_r. apply fold_clean_ordinary, Hm.
Qed.

(** The stack of [Clean], read from the bottom, has the elements of a
    cleaned path at every step. *)
Lemma clean_step_elems r out e :
  has_byte "/" e = false ->
  cleanElems r (rev out) -> cleanElems r (rev (clean_step r out e)).
Proof.
  intros He (k & m & Hout & Hm & Hr). unfold clean_step.
  destruct (String.eqb_spec e "") as [|Hne]; [exists k, m; auto|].
  destruct (String.eqb_spec e ".") as [|Hnd]; [exists k, m; auto|].
  cbn [orb].
  destruct (String.eqb_spec e "..") as [->|Hdd].
  - destruct out as [|top below].
    + destruct r.
      * exists O, []. split; [reflexivity|]. split; [reflexivity | auto].
      * exists 1%nat, []. split; [reflexivity|]. split; [reflexivity | discriminate].
    + cbn [rev] in Hout.
      destruct (String.eqb_spec top "..") as [->|Htop].
      * (* the stack ends in [..]: it holds nothing else *)
        destruct m as [|x m' _] using rev_ind.
        -- rewrite app_nil_r in Hout. exists (S k), [].
           split; [|split; [reflexivity|]].
           ++ cbn [rev]. rewrite Hout, app_nil_r, repeat_snoc. reflexivity.
           ++ intros Hr'. specialize (Hr Hr'). subst k.
              destruct (rev below); discriminate Hout.
        -- rewrite app_assoc in Hout. apply app_inj_tail in Hout as [_ Hx]. subst x.
           rewrite forallb_app in Hm. apply andb_true_iff in Hm as [_ Hx].
           simpl in Hx. discriminate Hx.
      * destruct m as [|x m' _] using rev_ind.
        -- rewrite app_nil_r in Hout. destruct k as [|k].
           ++ destruct (rev below); discriminate Hout.
           ++ cbn [repeat] in Hout. rewrite <- repeat_snoc in Hout.
              apply app_inj_tail in Hout as [_ Hx]. congruence.
        -- rewrite app_assoc in Hout. apply app_inj_tail in Hout as [Hb _].
           exists k, m'. split; [exact Hb|]. split; [|exact Hr].
           rewrite forallb_app in Hm. apply andb_true_iff in Hm as [Hm _]. exact Hm.
  - exists k, (m ++ [e]). split; [|split; [|exact Hr]].
    + cbn [rev]. rewrite Hout, app_assoc. reflexivity.
    + rewrite forallb_app, Hm. simpl. unfold ordinary.
      apply String.eqb_neq in Hne. apply String.eqb_neq in Hnd. apply String.eqb_neq in Hdd.
      rewrite Hne, Hnd, Hdd, He. reflexivity.
Qed.

Lemma fold_clean_step_elems r comps out :
  Forall (fun x => has_byte "/" x = false) comps ->
  cleanElems r (rev out) ->
  cleanElems r (rev (fold_left (clean_step r) comps out)).
Proof.
  intros HF. revert out. induction HF as [|e comps He _ IH]; intros out H; [exact H|].
  cbn [fold_left]. apply IH, clean_step_elems; assumption.
Qed.

Lemma cleanElems_nil r : cleanElems r [].
Proof. exists O, []. split; [reflexivity|]. split; [reflexivity | auto]. Qed.

Lemma cleanElems_no_sep r l :
  cleanElems r l -> Forall (fun x => has_byte "/" x = false) l.
Proof.
  intros (k & m & -> & Hm & _). apply Forall_app. split.
  - induction k; constructor; [reflexivity | assumption].
  - induction m as [|x m IH]; constructor.
    + simpl in Hm. apply andb_true_iff in Hm as [Hx _].
      apply ordinary_inv in Hx. tauto.
    + apply IH. simpl in Hm. apply andb_true_iff in Hm as [_ Hm]. exact Hm.
Qed.

Lemma cleanElems_not_empty r l :
  cleanElems r l -> Forall (fun x => x <> "") l.
Proof.
  intros (k & m & -> & Hm & _). apply Forall_app. split.
  - induction k; constructor; [discriminate | assumption].
  - induction m as [|x m IH]; constructor.
    + simpl in Hm. apply andb_true_iff in Hm as [Hx _].
      apply ordinary_inv in Hx. tauto.
    + apply IH. simpl in Hm. apply andb_true_iff in Hm as [_ Hm]. exact Hm.
Qed.

Lemma join_with_cons2 sep x y l :
  join_with sep (x :: y :: l) = x +:+ sep +:+ join_with sep (y :: l).
Proof. reflexivity. Qed.

Lemma join_with_empty_inv l :
  Forall (fun x => x <> "") l -> join_with "/" l = "" -> l = [].
Proof.
  destruct l as [|x [|y l]]; [reflexivity| |].
  - intros H. inversion H; subst. simpl. contradiction.
  - intros H. inversion H; subst. rewrite join_with_cons2.
    destruct x; [contradiction | discriminate].
Qed.

(** What [Clean] returns is the text of the elements its stack holds. *)
Lemma Clean_render p :
  exists l, cleanElems (IsAbs p) l /\ Clean p = render (IsAbs p) l.
Proof.
  unfold Clean. destruct (String.eqb_spec p "") as [->|Hp].
  { exists []. split; [apply cleanElems_nil | reflexivity]. }
  set (out := fold_left (clean_step (IsAbs p)) (Split p "/") []).
  assert (Hl : cleanElems (IsAbs p) (rev out)).
  { apply fold_clean_step_elems; [apply Split_elem_no_sep | apply cleanElems_nil]. }
  exists (rev out). split; [exact Hl|].
  unfold render. destruct (IsAbs p); [reflexivity|].
  destruct (String.eqb_spec (join_with "/" (rev out)) "") as [E|E].
  - rewrite (join_with_empty_inv _ (cleanElems_not_empty _ _ Hl) E). reflexivity.
  - destruct (rev out); [contradiction E; reflexivity | reflexivity].
Qed.

Lemma Split_join l :
  l <> [] -> Forall (fun x => has_byte "/" x = false) l ->
  Split (join_with "/" l) "/" = l.
Proof.
  induction l as [|x l IH]; [contradiction|]. intros _ HF.
  inversion HF as [|? ? Hx Hl]; subst.
  destruct l as [|y l].
  - apply Split_no_sep, Hx.
  - rewrite join_with_cons2.
    change (x +:+ "/" +:+ join_with "/" (y :: l))
      with (x +:+ String "/" (join_with "/" (y :: l))).
    rewrite (Split_app_sep _ _ _ Hx), IH; [reflexivity | discriminate | exact Hl].
Qed.

Lemma HasPrefix_append_sep x rest :
  x <> "" -> has_byte "/" x = false -> HasPrefix (x +:+ rest) "/" = false.
Proof.
  destruct x as [|c x]; [contradiction|]. intros _ H. simpl in H.
  apply orb_false_iff in H as [Hc _].
  change (String c x +:+ rest) with (String c (x +:+ rest)). simpl.
  rewrite Hc. reflexivity.
Qed.

Lemma IsAbs_join l :
  l <> [] -> Forall (fun x => x <> "") l -> Forall (fun x => has_byte "/" x = false) l ->
  IsAbs (join_with "/" l) = false.
Proof.
  destruct l as [|x l]; [contradiction|]. intros _ H1 H2.
  inversion H1; subst. inversion H2; subst. unfold IsAbs.
  destruct l as [|y l].
  - simpl. rewrite <- (append_nil_r x). apply HasPrefix_append_sep; assumption.
  - rewrite join_with_cons2. apply HasPrefix_append_sep; assumption.
Qed.

(** Cleaning the text of a cleaned path gives it back. *)
Lemma Clean_of_render r l : cleanElems r l -> Clean (render r l) = render r l.
Proof.
  intros Hl.
  pose proof (cleanElems_no_sep _ _ Hl) as Hsep.
  pose proof (cleanElems_not_empty _ _ Hl) as Hne.
  destruct r; cbn [render].
  - destruct l as [|x l'] eqn:El; [reflexivity|]. rewrite <- El in *.
    assert (Hnil : l <> []) by (rewrite El; discriminate).
    unfold Clean.
    change ("/" +:+ join_with "/" l) with (String "/" (join_with "/" l)).
    assert (E1 : String.eqb (String "/" (join_with "/" l)) "" = false) by reflexivity.
    assert (E2 : IsAbs (String "/" (join_with "/" l)) = true)
      by (unfold IsAbs; destruct (join_with "/" l); reflexivity).
    assert (E3 : Split (String "/" (join_with "/" l)) "/"
                 = "" :: Split (join_with "/" l) "/") by reflexivity.
    rewrite E1, E2, E3, (Split_join _ Hnil Hsep).
    change (fold_left (clean_step true) ("" :: l) [])
      with (fold_left (clean_step true) l []).
    rewrite (fold_clean_elems _ _ Hl), rev_involutive. reflexivity.
  - destruct l as [|x l'] eqn:El; [reflexivity|]. rewrite <- El in *.
    assert (Hnil : l <> []) by (rewrite El; discriminate).
    assert (Hj : join_with "/" l <> "").
    { intros E. apply Hnil. exact (join_with_empty_inv _ Hne E). }
    unfold Clean. apply String.eqb_neq in Hj. rewrite Hj.
    rewrite (IsAbs_join _ Hnil Hne Hsep), (Split_join _ Hnil Hsep).
    rewrite (fold_clean_elems _ _ Hl), rev_involutive, Hj. reflexivity.
Qed.

(** [Clean] is idempotent. *)
Lemma Clean_idempotent p : Clean (Clean p) = Clean p.
Proof.
  destruct (Clean_render p) as (l & Hl & ->). apply Clean_of_render, Hl.
Qed.

(** A result of [Join] that is not empty is a cleaned path. *)
Lemma Join_clean elem : Join elem <> "" -> Clean (Join elem) = Join elem.
Proof.
  induction elem as [|e rest IH]; [intros H; contradiction H; reflexivity|].
  cbn [Join]. destruct (String.eqb e ""); [exact IH|].
  intros _. apply Clean_idempotent.
Qed.

(** ** The file system under the installer *)

Lemma Join_two_not_empty a b : b <> "" -> Join [a; b] <> "".
Proof.
  intros Hb. cbn [Join]. apply String.eqb_neq in Hb.
  destruct (String.eqb a ""); [rewrite Hb|]; apply Clean_not_empty.
Qed.

Lemma Join_two_clean a b : b <> "" -> Clean (Join [a; b]) = Join [a; b].
Proof. intros Hb. apply Join_clean, Join_two_not_empty, Hb. Qed.

Lemma Lstat_clean fs p :
  Clean p = p ->
  Lstat fs p
  = if always_there p then (Some (DirNode 493), None)
    else match fs !! p with
         | Some n => (Some n, None)
         | None => (None, Some (ErrPath "lstat" p ENOENT))
         end.
Proof. intros H. unfold Lstat. rewrite H. reflexivity. Qed.

(** A successful [Symlink] found nothing at the new name and adds the
    link there. *)
Lemma Symlink_success_inv fs oldname newname fs' :
  Clean newname = newname ->
  Symlink fs oldname newname = (fs', None) ->
  fs !! newname = None /\ fs' = <[newname := LinkNode oldname]> fs.
Proof.
  intros Hc. unfold Symlink. rewrite Hc, (Lstat_clean _ _ Hc).
  destruct (always_there newname); [discriminate|].
  destruct (fs !! newname) as [n|]; [discriminate|].
  destruct (is_dir (Stat fs (Dir newname))); [|discriminate].
  intros H. injection H as <-. split; reflexivity.
Qed.

(** [Symlink] fails when there is something at the new name, and
    changes nothing. *)
Lemma Symlink_exists fs oldname newname :
  Clean newname = newname ->
  is_Some (fs !! newname) ->
  Symlink fs oldname newname = (fs, Some (ErrPath "symlink" newname EEXIST)).
Proof.
  intros Hc [n Hn]. unfold Symlink. rewrite Hc, (Lstat_clean _ _ Hc), Hn.
  destruct (always_there newname); reflexivity.
Qed.

(** What a successful [createSymlinks] did. *)
Lemma createSymlinks_success_inv i fs fs' :
  createSymlinks i fs = (fs', None) ->
  fs !! Join [BinDir i; "go"] = None
  /\ fs !! Join [BinDir i; "gofmt"] = None
  /\ Join [BinDir i; "go"] <> Join [BinDir i; "gofmt"]
  /\ fs' = <[Join [BinDir i; "gofmt"] := LinkNode (Join [InstallDir i; "go"; "bin"; "gofmt"])]>
           (<[Join [BinDir i; "go"] := LinkNode (Join [InstallDir i; "go"; "bin"; "go"])]> fs).
Proof.
  unfold createSymlinks.
  destruct (Symlink fs (Join [InstallDir i; "go"; "bin"; "go"]) (Join [BinDir i; "go"]))
    as [fs1 [e|]] eqn:S1; [discriminate|].
  destruct (Symlink fs1 (Join [InstallDir i; "go"; "bin"; "gofmt"]) (Join [BinDir i; "gofmt"]))
    as [fs2 [e|]] eqn:S2; [discriminate|].
  intros H. injection H as <-.
  apply Symlink_success_inv in S1 as [N1 ->]; [|apply Join_two_clean; discriminate].
  apply Symlink_success_inv in S2 as [N2 ->]; [|apply Join_two_clean; discriminate].
  assert (Hne : Join [BinDir i; "go"] <> Join [BinDir i; "gofmt"]).
  { intros E. rewrite <- E, lookup_insert_eq in N2. discriminate N2. }
  rewrite lookup_insert_ne in N2 by exact Hne.
  repeat split; assumption.
Qed.

(** X18: when [createSymlinks] succeeds there was nothing at [go] and
    [gofmt] in the bin directory before, and afterwards the disk is the
    one before with two links added there, to [go/bin/go] and
    [go/bin/gofmt] under the install root. *)
Theorem createSymlinks_adds_two_links i fs fs' :
  createSymlinks i fs = (fs', None) ->
  fs !! Join [BinDir i; "go"] = None
  /\ fs !! Join [BinDir i; "gofmt"] = None
  /\ Join [BinDir i; "go"] <> Join [BinDir i; "gofmt"]
  /\ fs' = <[Join [BinDir i; "gofmt"] := LinkNode (Join [InstallDir i; "go"; "bin"; "gofmt"])]>
           (<[Join [BinDir i; "go"] := LinkNode (Join [InstallDir i; "go"; "bin"; "go"])]> fs).
Proof.
  unfold createSymlinks.
  destruct (Symlink fs (Join [InstallDir i; "go"; "bin"; "go"]) (Join [BinDir i; "go"]))
    as [fs1 [e|]] eqn:S1; [discriminate|].
  destruct (Symlink fs1 (Join [InstallDir i; "go"; "bin"; "gofmt"]) (Join [BinDir i; "gofmt"]))
    as [fs2 [e|]] eqn:S2; [discriminate|].
  intros H. injection H as <-.
  apply Symlink_success_inv in S1 as [N1 ->]; [|apply Join_two_clean; discriminate].
  apply Symlink_success_inv in S2 as [N2 ->]; [|apply Join_two_clean; discriminate].
  assert (Hne : Join [BinDir i; "go"] <> Join [BinDir i; "gofmt"]).
  { intros E. rewrite <- E, lookup_insert_eq in N2. discriminate N2. }
  rewrite lookup_insert_ne in N2 by exact Hne.
  repeat split; assumption.
Qed.

Lemma createSymlinks_adds_two_links_witness :
  createSymlinks userInstaller (<["/home/u/.local/bin" := DirNode 493]> ∅)
  = (<["/home/u/.local/bin/gofmt" := LinkNode "/home/u/.local/lib/go/bin/gofmt"]>
     (<["/home/u/.local/bin/go" := LinkNode "/home/u/.local/lib/go/bin/go"]>
     (<["/home/u/.local/bin" := DirNode 493]> ∅)), None)
  /\ (<["/home/u/.local/bin" := DirNode 493]> ∅ : gmap string Node)
       !! Join [BinDir userInstaller; "go"] = None.
Proof.
  assert (H : createSymlinks userInstaller (<["/home/u/.local/bin" := DirNode 493]> ∅)
  = (<["/home/u/.local/bin/gofmt" := LinkNode "/home/u/.local/lib/go/bin/gofmt"]>
     (<["/home/u/.local/bin/go" := LinkNode "/home/u/.local/lib/go/bin/go"]>
     (<["/home/u/.local/bin" := DirNode 493]> ∅)), None)) by (vm_compute; reflexivity).
  split; [exact H|].
  exact (proj1 (createSymlinks_adds_two_links userInstaller _ _ H)).
Defined.

(** X19: [createSymlinks] cannot be run twice.  After a run that
    succeeded, a second run fails at the link for [go] with "file
    exists" and leaves the disk as it is. *)
Theorem createSymlinks_not_repeatable i fs fs' :
  createSymlinks i fs = (fs', None) ->
  createSymlinks i fs'
  = (fs', Some (ErrWrap "failed to create symlink for go: "
                  (ErrPath "symlink" (Join [BinDir i; "go"]) EEXIST))).
Proof.
  intros H. destruct (createSymlinks_success_inv _ _ _ H) as (_ & _ & Hne & ->).
  unfold createSymlinks. rewrite Symlink_exists; [reflexivity | apply Join_two_clean; discriminate |].
  rewrite lookup_insert_ne by (intros E; apply Hne; symmetry; exact E).
  rewrite lookup_insert_eq. eexists. reflexivity.
Qed.

Lemma createSymlinks_not_repeatable_witness :
  createSymlinks userInstaller (<["/home/u/.local/bin" := DirNode 493]> ∅)
  = (<["/home/u/.local/bin/gofmt" := LinkNode "/home/u/.local/lib/go/bin/gofmt"]>
     (<["/home/u/.local/bin/go" := LinkNode "/home/u/.local/lib/go/bin/go"]>
     (<["/home/u/.local/bin" := DirNode 493]> ∅)), None)
  /\ snd (createSymlinks userInstaller
            (<["/home/u/.local/bin/gofmt" := LinkNode "/home/u/.local/lib/go/bin/gofmt"]>
            (<["/home/u/.local/bin/go" := LinkNode "/home/u/.local/lib/go/bin/go"]>
            (<["/home/u/.local/bin" := DirNode 493]> ∅))))
     = Some (ErrWrap "failed to create symlink for go: "
               (ErrPath "symlink" "/home/u/.local/bin/go" EEXIST)).
Proof.
  assert (H : createSymlinks userInstaller (<["/home/u/.local/bin" := DirNode 493]> ∅)
  = (<["/home/u/.local/bin/gofmt" := LinkNode "/home/u/.local/lib/go/bin/gofmt"]>
     (<["/home/u/.local/bin/go" := LinkNode "/home/u/.local/lib/go/bin/go"]>
     (<["/home/u/.local/bin" := DirNode 493]> ∅)), None)) by (vm_compute; reflexivity).
  split; [exact H|].
  rewrite (createSymlinks_not_repeatable userInstaller _ _ H). reflexivity.
Defined.

(** [Remove] on success deletes the node at the name. *)
Lemma Remove_success_inv fs name fs' :
  Clean name = name -> Remove fs name = (fs', None) -> fs' = delete name fs.
Proof.
  intros Hc. unfold Remove. rewrite Hc.
  destruct (fs !! name) as [[m|m c|t]|]; try discriminate.
  - destruct (has_children fs name); [discriminate|]. intros H. injection H as <-. reflexivity.
  - intros H. injection H as <-. reflexivity.
  - intros H. injection H as <-. reflexivity.
Qed.

(** The step [removeExisting] makes for each link: when it returns no
    error there is nothing at the name afterwards, and nothing else
    changed. *)
Lemma remove_if_present fs name msg fs' :
  Clean name = name ->
  (if is_nil (snd (Lstat fs name)) then
     match Remove fs name with
     | (fs2, Some err) => (fs2, Some (ErrWrap msg err))
     | (fs2, None) => (fs2, None)
     end
   else (fs, None)) = (fs', None) ->
  fs' = delete name fs.
Proof.
  intros Hc. rewrite (Lstat_clean _ _ Hc).
  destruct (always_there name).
  - cbn [snd is_nil]. destruct (Remove fs name) as [fs2 [e|]] eqn:R; [discriminate|].
    intros H. injection H as <-. exact (Remove_success_inv _ _ _ Hc R).
  - destruct (fs !! name) as [n|] eqn:L; cbn [snd is_nil].
    + destruct (Remove fs name) as [fs2 [e|]] eqn:R; [discriminate|].
      intros H. injection H as <-. exact (Remove_success_inv _ _ _ Hc R).
    + intros H. injection H as <-. symmetry. apply delete_id, L.
Qed.

(** X20: when the installation directory is there and [removeExisting]
    returns no error, the disk afterwards is the one before without the
    directory [go] under the install root, without everything below it,
    and without the nodes at [go] and [gofmt] in the bin directory;
    every other node is as it was. *)
Theorem removeExisting_removes_tree_and_links i fs fs' :
  IsNotExist (snd (Stat fs (Join [InstallDir i; "go"]))) = false ->
  removeExisting i fs = (fs', None) ->
  (forall k, within (Join [InstallDir i; "go"]) k = true -> fs' !! k = None)
  /\ fs' !! Join [BinDir i; "go"] = None
  /\ fs' !! Join [BinDir i; "gofmt"] = None
  /\ (forall k, within (Join [InstallDir i; "go"]) k = false ->
                k <> Join [BinDir i; "go"] -> k <> Join [BinDir i; "gofmt"] ->
                fs' !! k = fs !! k).
Proof.
  intros Hstat. unfold removeExisting. rewrite Hstat.
  unfold RemoveAll. rewrite (Join_two_clean (InstallDir i) "go") by discriminate.
  set (d := Join [InstallDir i; "go"]).
  set (fs1 := filter (fun kv : string * Node => within d kv.1 = false) fs).
  set (l1 := Join [BinDir i; "go"]). set (l2 := Join [BinDir i; "gofmt"]).
  destruct (if is_nil (snd (Lstat fs1 l1)) then _ else _) as [fs2 [e|]] eqn:S1;
    [discriminate|].
  apply remove_if_present in S1; [|apply Join_two_clean; discriminate].
  intros S2. apply remove_if_present in S2; [|apply Join_two_clean; discriminate].
  subst fs' fs2.
  assert (Hgone : forall k, within d k = true -> fs1 !! k = None).
  { intros k Hk. apply map_lookup_filter_None. right. intros x _. simpl.
    rewrite Hk. discriminate. }
  assert (Hkept : forall k, within d k = false -> fs1 !! k = fs !! k).
  { intros k Hk. destruct (fs !! k) as [x|] eqn:L.
    - apply map_lookup_filter_Some. split; [exact L | exact Hk].
    - apply map_lookup_filter_None. left. exact L. }
  repeat split.
  - intros k Hk.
    destruct (decide (k = l2)) as [->|N2]; [apply lookup_delete_eq|].
    rewrite lookup_delete_ne by congruence.
    destruct (decide (k = l1)) as [->|N1]; [apply lookup_delete_eq|].
    rewrite lookup_delete_ne by congruence. apply Hgone, Hk.
  - destruct (decide (l1 = l2)) as [E|N]; [rewrite E; apply lookup_delete_eq|].
    rewrite lookup_delete_ne by congruence. apply lookup_delete_eq.
  - apply lookup_delete_eq.
  - intros k Hk N1 N2. rewrite !lookup_delete_ne by congruence. apply Hkept, Hk.
Qed.

Lemma removeExisting_removes_tree_and_links_witness :
  IsNotExist (snd (Stat installedDisk (Join [InstallDir userInstaller; "go"]))) = false
  /\ snd (removeExisting userInstaller installedDisk) = None
  /\ fst (removeExisting userInstaller installedDisk)
       !! Join [BinDir userInstaller; "go"] = None
  /\ fst (removeExisting userInstaller installedDisk)
       !! "/home/u/.local/lib/go/VERSION" = None.
Proof.
  split; [reflexivity|]. split; [vm_compute; reflexivity|].
  destruct (removeExisting userInstaller installedDisk) as [fs' e] eqn:R.
  assert (He : e = None) by (apply (f_equal snd) in R; vm_compute in R; congruence).
  subst e.
  destruct (removeExisting_removes_tree_and_links userInstaller installedDisk fs'
              eq_refl R) as (Htree & Hgo & _).
  split; [exact Hgo | apply Htree; reflexivity].
Defined.

(** ** The guard of the extraction *)

Lemma join_Split s : join_with "/" (Split s "/") = s.
Proof.
  induction s as [|c s IH]; [reflexivity|].
  cbn [Split]. destruct (Ascii.eqb_spec c "/") as [->|Hc].
  - destruct (Split s "/") as [|h t] eqn:E; [exfalso; exact (Split_not_nil _ _ E)|].
    rewrite join_with_cons2, IH. reflexivity.
  - destruct (Split s "/") as [|h t] eqn:E; [exfalso; exact (Split_not_nil _ _ E)|].
    destruct t as [|h' t'].
    + cbn [join_with] in *. rewrite IH. reflexivity.
    + rewrite join_with_cons2 in *. rewrite <- IH. reflexivity.
Qed.

Lemma join_with_app l1 l2 :
  l1 <> [] -> l2 <> [] ->
  join_with "/" (l1 ++ l2) = join_with "/" l1 +:+ "/" +:+ join_with "/" l2.
Proof.
  intros H1 H2. induction l1 as [|x l1 IH]; [contradiction|].
  destruct l1 as [|y l1].
  - destruct l2 as [|z l2]; [contradiction|]. reflexivity.
  - change ((x :: y :: l1) ++ l2) with (x :: y :: (l1 ++ l2)).
    rewrite !join_with_cons2.
    change (y :: l1 ++ l2) with ((y :: l1) ++ l2). rewrite IH by discriminate.
    rewrite !append_assoc. reflexivity.
Qed.

Lemma HasPrefix_append a b : HasPrefix (a +:+ b) a = true.
Proof.
  induction a as [|c a IH]; [destruct b; reflexivity|].
  change (String c a +:+ b) with (String c (a +:+ b)). simpl.
  rewrite Ascii.eqb_refl, IH. reflexivity.
Qed.

Lemma append_not_self a b : b <> "" -> a +:+ b <> a.
Proof.
  intros Hb E. apply Hb. rewrite <- (append_nil_r a) in E at 2.
  exact (String.app_inj a _ _ E).
Qed.

(** X21: for an install root that is a cleaned absolute path other
    than the root directory, and an entry whose name is made of ordinary
    elements, the guard of [extractTarball] lets the entry pass and its
    target is the root, a separator and the name as recorded, which is
    below the root. *)
Theorem extractTarball_target_of_ordinary_name i e :
  Clean (InstallDir i) = InstallDir i ->
  IsAbs (InstallDir i) = true ->
  InstallDir i <> "/" ->
  forallb ordinary (Split (Name (header e)) "/") = true ->
  Join [InstallDir i; Name (header e)] = InstallDir i +:+ "/" +:+ Name (header e)
  /\ HasPrefix (Join [InstallDir i; Name (header e)]) (InstallDir i) = true
  /\ insideRoot (InstallDir i) (Join [InstallDir i; Name (header e)]) = true.
Proof.
  intros Hclean Habs Hroot Hname.
  set (root := InstallDir i) in *. set (name := Name (header e)) in *.
  destruct (Clean_render root) as (lr & Hlr & Hr). rewrite Hclean, Habs in Hr.
  rewrite Habs in Hlr. cbn [render] in Hr.
  assert (Hlrne : lr <> []).
  { intros ->. apply Hroot. rewrite Hr. reflexivity. }
  assert (Hmne : Split name "/" <> []) by apply Split_not_nil.
  assert (Hall : cleanElems true (lr ++ Split name "/")).
  { destruct Hlr as (k & m & -> & Hm & Hk). rewrite (Hk eq_refl). cbn [repeat app].
    exists O, (m ++ Split name "/"). split; [reflexivity|]. split; [|auto].
    rewrite forallb_app, Hm, Hname. reflexivity. }
  assert (Hjoin : Join [root; name] = root +:+ "/" +:+ name).
  { cbn [Join]. destruct (String.eqb_spec root "") as [E|_].
    { rewrite E in Habs. discriminate Habs. }
    cbn [join_with].
    assert (Hr' : root +:+ "/" +:+ name = render true (lr ++ Split name "/")).
    { cbn [render]. rewrite (join_with_app _ _ Hlrne Hmne), join_Split.
      rewrite Hr at 1. rewrite !append_assoc. reflexivity. }
    rewrite Hr'. apply Clean_of_render, Hall. }
  split; [exact Hjoin|]. rewrite Hjoin. split; [apply HasPrefix_append|].
  unfold insideRoot. rewrite Hclean.
  assert (Hc : Clean (root +:+ "/" +:+ name) = root +:+ "/" +:+ name).
  { rewrite <- Hjoin. apply Join_clean. rewrite Hjoin.
    intros E. destruct root; [discriminate Habs | discriminate E]. }
  rewrite Hc. unfold within.
  apply String.eqb_neq in Hroot. rewrite Hroot.
  assert (Hne : root +:+ "/" +:+ name <> root).
  { apply append_not_self. discriminate. }
  apply String.eqb_neq in Hne. rewrite Hne. cbn [orb negb andb].
  rewrite <- append_assoc, HasPrefix_append. reflexivity.
Qed.

Lemma extractTarball_target_of_ordinary_name_witness :
  Clean (InstallDir userInstaller) = InstallDir userInstaller
  /\ forallb ordinary (Split (Name (header goBinaryEntry)) "/") = true
  /\ Join [InstallDir userInstaller; Name (header goBinaryEntry)]
     = "/home/u/.local/lib/go/bin/go".
Proof.
  split; [reflexivity|]. split; [reflexivity|].
  exact (proj1 (extractTarball_target_of_ordinary_name userInstaller goBinaryEntry
                  eq_refl eq_refl ltac:(discriminate) eq_refl)).
Defined.

Lemma HasPrefix_trans t r q :
  HasPrefix t r = true -> HasPrefix r q = true -> HasPrefix t q = true.
Proof.
  revert t r. induction q as [|c q IH]; intros t r Htr Hrq; [destruct t; reflexivity|].
  destruct r as [|b r]; [discriminate Hrq|].
  destruct t as [|a t]; [discriminate Htr|].
  simpl in *. apply andb_true_iff in Htr as [Hab Htr].
  apply andb_true_iff in Hrq as [Hbc Hrq].
  apply Ascii.eqb_eq in Hab. apply Ascii.eqb_eq in Hbc. subst.
  rewrite Ascii.eqb_refl. exact (IH _ _ Htr Hrq).
Qed.

Lemma element_not_dot_slash x rest :
  x <> "" -> x <> "." -> has_byte "/" x = false -> HasPrefix (x +:+ rest) "./" = false.
Proof.
  intros H1 H2 H3. destruct x as [|a x]; [contradiction|].
  change (String a x +:+ rest) with (String a (x +:+ rest)). cbn [HasPrefix].
  destruct (Ascii.eqb_spec a ".") as [->|]; [|reflexivity].
  destruct x as [|b x]; [contradiction|].
  change (String b x +:+ rest) with (String b (x +:+ rest)). cbn [HasPrefix andb].
  simpl in H3. apply orb_false_iff in H3 as [H3 _].
  rewrite H3. reflexivity.
Qed.

(** A cleaned relative path never starts with [./]. *)
Lemma render_not_dot_slash l :
  cleanElems false l -> HasPrefix (render false l) "./" = false.
Proof.
  intros Hl. pose proof (cleanElems_no_sep _ _ Hl) as Hsep.
  destruct Hl as (k & m & -> & Hm & _).
  assert (Hfirst : forall x l', repeat ".." k ++ m = x :: l' ->
                                x <> "" /\ x <> "." /\ has_byte "/" x = false).
  { intros x l' E. destruct k as [|k].
    - destruct m as [|y m']; [discriminate E|]. injection E as -> _.
      simpl in Hm. apply andb_true_iff in Hm as [Hy _].
      apply ordinary_inv in Hy. tauto.
    - injection E as <- _. repeat split; discriminate. }
  destruct (repeat ".." k ++ m) as [|x l'] eqn:E; [reflexivity|].
  destruct (Hfirst x l' eq_refl) as (H1 & H2 & H3).
  cbn [render]. destruct l' as [|y l''].
  - cbn [join_with]. rewrite <- (append_nil_r x). apply element_not_dot_slash; assumption.
  - rewrite join_with_cons2. apply element_not_dot_slash; assumption.
Qed.

(** X22: an installer whose install root is written with a leading
    [./] refuses every entry of every archive: the target is cleaned and
    so never starts with [./], and the guard compares it with the root as
    it was written. *)
Theorem extractTarball_relative_root_refuses_all i e fs :
  HasPrefix (InstallDir i) "./" = true ->
  extractEntry i e fs
  = (fs, Some (ErrNew ("invalid tar entry (path traversal attempt): " +:+ Name (header e)))).
Proof.
  intros Hroot. apply extractEntry_refuses.
  destruct (HasPrefix (Join [InstallDir i; Name (header e)]) (InstallDir i)) eqn:G;
    [|reflexivity].
  pose proof (HasPrefix_trans _ _ _ G Hroot) as Hbad.
  cbn [Join] in Hbad.
  destruct (InstallDir i) as [|a root] eqn:Eroot; [discriminate Hroot|].
  cbn [String.eqb] in Hbad.
  destruct (Clean_render (join_with "/" [String a root; Name (header e)]))
    as (l & Hl & Hc).
  assert (Hrel : IsAbs (join_with "/" [String a root; Name (header e)]) = false).
  { cbn [join_with].
    change (String a root +:+ "/" +:+ Name (header e))
      with (String a (root +:+ "/" +:+ Name (header e))).
    unfold IsAbs. cbn [HasPrefix] in Hroot |- *.
    apply andb_true_iff in Hroot as [Ha _]. apply Ascii.eqb_eq in Ha. subst a.
    reflexivity. }
  rewrite Hrel in Hl, Hc. rewrite Hc, (render_not_dot_slash _ Hl) in Hbad.
  discriminate Hbad.
Qed.

Lemma extractTarball_relative_root_refuses_all_witness :
  HasPrefix (InstallDir (mkInstaller "./lib" "./bin")) "./" = true
  /\ extractEntry (mkInstaller "./lib" "./bin") goBinaryEntry ∅
     = (∅, Some (ErrNew "invalid tar entry (path traversal attempt): go/bin/go")).
Proof.
  split; [reflexivity|].
  exact (extractTarball_relative_root_refuses_all (mkInstaller "./lib" "./bin")
           goBinaryEntry ∅ eq_refl).
Defined.

(** ** Directories *)

Lemma ancestors_from_last r l :
  forall cur, l <> [] -> Forall (fun x => x <> "") l ->
  last (ancestors_from r cur l)
  = Some ((if String.eqb cur "" then (if r then "/" else "") else cur +:+ "/")
          +:+ join_with "/" l).
Proof.
  induction l as [|x l IH]; intros cur Hne HF; [contradiction|].
  inversion HF as [|? ? Hx Hl]; subst. apply String.eqb_neq in Hx.
  cbn [ancestors_from]. rewrite Hx.
  set (cur' := if String.eqb cur "" then (if r then "/" +:+ x else x) else cur +:+ "/" +:+ x).
  assert (Hcur' : cur' = (if String.eqb cur "" then (if r then "/" else "") else cur +:+ "/") +:+ x).
  { unfold cur'. destruct (String.eqb cur ""); [destruct r; reflexivity|].
    rewrite append_assoc. reflexivity. }
  destruct l as [|y l'].
  - cbn [ancestors_from last join_with]. rewrite Hcur'. reflexivity.
  - assert (Hc : String.eqb cur' "" = false).
    { apply String.eqb_neq. rewrite Hcur'. apply String.eqb_neq in Hx.
      destruct (if String.eqb cur "" then if r then "/" else "" else cur +:+ "/");
        [exact Hx | discriminate]. }
    assert (Hlast : last (cur' :: ancestors_from r cur' (y :: l'))
                    = last (ancestors_from r cur' (y :: l'))).
    { destruct (ancestors_from r cur' (y :: l')) eqn:E; [|reflexivity].
      exfalso. inversion Hl as [|? ? Hy _]; subst. apply String.eqb_neq in Hy.
      cbn [ancestors_from] in E. rewrite Hy in E. discriminate E. }
    rewrite Hlast, (IH cur') by (try discriminate; assumption).
    rewrite Hc, join_with_cons2, Hcur', !append_assoc. reflexivity.
Qed.

(** The last directory [MkdirAll] looks at is the path itself. *)
Lemma ancestors_last_clean path :
  always_there (Clean path) = false ->
  exists above, ancestors (Clean path) = above ++ [Clean path].
Proof.
  intros Hat. apply last_Some.
  destruct (Clean_render path) as (l & Hl & Hc).
  pose proof (cleanElems_no_sep _ _ Hl) as Hsep.
  pose proof (cleanElems_not_empty _ _ Hl) as Hne.
  assert (Hnil : l <> []).
  { intros ->. rewrite Hc in Hat. destruct (IsAbs path); discriminate Hat. }
  unfold ancestors. rewrite Hc. destruct (IsAbs path); cbn [render].
  - change ("/" +:+ join_with "/" l) with (String "/" (join_with "/" l)).
    assert (E2 : IsAbs (String "/" (join_with "/" l)) = true)
      by (unfold IsAbs; destruct (join_with "/" l); reflexivity).
    assert (E3 : Split (String "/" (join_with "/" l)) "/"
                 = "" :: Split (join_with "/" l) "/") by reflexivity.
    rewrite E2, E3, (Split_join _ Hnil Hsep).
    change (ancestors_from true "" ("" :: l)) with (ancestors_from true "" l).
    rewrite (ancestors_from_last true l "" Hnil Hne). reflexivity.
  - destruct l as [|x l'] eqn:El; [contradiction|]. rewrite <- El in *.
    rewrite (IsAbs_join _ Hnil Hne Hsep), (Split_join _ Hnil Hsep).
    rewrite (ancestors_from_last false l "" Hnil Hne). reflexivity.
Qed.

Lemma Stat_error_no_node fs name r : Stat fs name = r -> snd r = None \/ fst r = None.
Proof.
  intros <-. unfold Stat. destruct (follow maxSymlinks fs (Clean name)) as [q|]; [|right; reflexivity].
  destruct (always_there q); [left; reflexivity|].
  destruct (fs !! q); [left | right]; reflexivity.
Qed.

Lemma mkdir_step_error name perm fs e p : mkdir_step name perm (fs, Some e) p = (fs, Some e).
Proof. reflexivity. Qed.

Lemma fold_mkdir_step_error name perm l fs e :
  fold_left (mkdir_step name perm) l (fs, Some e) = (fs, Some e).
Proof. induction l as [|p l IH]; [reflexivity|]. cbn [fold_left]. rewrite mkdir_step_error. exact IH. Qed.

(** One step of [MkdirAll] keeps the disk or adds a directory where
    nothing was. *)
Lemma mkdir_step_cases name perm fs p fs' e :
  mkdir_step name perm (fs, None) p = (fs', e) ->
  fs' = fs \/ (fs !! p = None /\ fs' = <[p := DirNode perm]> fs /\ e = None).
Proof.
  unfold mkdir_step. destruct (Stat fs p) as [[[m|m c|t]|] err].
  - intros H. injection H as <- _. left. reflexivity.
  - intros H. injection H as <- _. left. reflexivity.
  - intros H. injection H as <- _. left. reflexivity.
  - destruct (IsNotExist err).
    + destruct (fs !! p) eqn:L.
      * intros H. injection H as <- _. left. reflexivity.
      * intros H. injection H as <- <-. right. auto.
    + intros H. injection H as <- _. left. reflexivity.
Qed.

(** [MkdirAll] never changes or removes a node: it only adds
    directories with the mode it was given. *)
Lemma fold_mkdir_step_adds name perm l :
  forall fs fs' e,
    fold_left (mkdir_step name perm) l (fs, None) = (fs', e) ->
    forall k, fs' !! k = fs !! k \/ (fs !! k = None /\ fs' !! k = Some (DirNode perm)).
Proof.
  induction l as [|p l IH]; intros fs fs' e H k.
  - injection H as <- _. left. reflexivity.
  - cbn [fold_left] in H.
    destruct (mkdir_step name perm (fs, None) p) as [fs1 [e1|]] eqn:S.
    + rewrite fold_mkdir_step_error in H. injection H as <- _.
      destruct (mkdir_step_cases _ _ _ _ _ _ S) as [->|(_ & _ & E)];
        [left; reflexivity | discriminate E].
    + destruct (IH _ _ _ H k) as [E|[E1 E2]];
        destruct (mkdir_step_cases _ _ _ _ _ _ S) as [->|(L & -> & _)].
      * left. exact E.
      * destruct (decide (p = k)) as [->|N].
        -- right. rewrite E, lookup_insert_eq. auto.
        -- left. rewrite E, lookup_insert_ne by exact N. reflexivity.
      * right. auto.
      * destruct (decide (p = k)) as [->|N].
        -- rewrite lookup_insert_eq in E1. discriminate E1.
        -- rewrite lookup_insert_ne in E1 by exact N. right. auto.
Qed.

Lemma MkdirAll_adds fs path perm fs' e :
  MkdirAll fs path perm = (fs', e) ->
  forall k, fs' !! k = fs !! k \/ (fs !! k = None /\ fs' !! k = Some (DirNode perm)).
Proof.
  unfold MkdirAll. destruct (always_there (Clean path)).
  - intros H k. injection H as <- _. left. reflexivity.
  - apply fold_mkdir_step_adds.
Qed.

(** Adding directories where nothing was does not change where links
    lead, and a directory stays one. *)
Lemma follow_adds perm fs fs' :
  (forall k, fs' !! k = fs !! k \/ (fs !! k = None /\ fs' !! k = Some (DirNode perm))) ->
  forall n x, follow n fs' x = follow n fs x.
Proof.
  intros Hadd n. induction n as [|n IH]; intros x; cbn [follow].
  - destruct (Hadd x) as [->|[-> ->]]; reflexivity.
  - destruct (Hadd x) as [->|[-> ->]]; [|reflexivity].
    destruct (fs !! x) as [[m|m c|t]|]; try reflexivity. apply IH.
Qed.

Lemma Stat_adds perm fs fs' x :
  (forall k, fs' !! k = fs !! k \/ (fs !! k = None /\ fs' !! k = Some (DirNode perm))) ->
  is_dir (Stat fs x) = true -> is_dir (Stat fs' x) = true.
Proof.
  intros Hadd. unfold Stat. rewrite (follow_adds _ _ _ Hadd).
  destruct (follow maxSymlinks fs (Clean x)) as [q|]; [|discriminate].
  destruct (always_there q); [reflexivity|].
  destruct (Hadd q) as [->|[-> ->]]; [auto | reflexivity].
Qed.

Lemma is_dir_Stat_clean fs p : is_dir (Stat fs (Clean p)) = is_dir (Stat fs p).
Proof.
  unfold Stat. rewrite Clean_idempotent.
  destruct (follow maxSymlinks fs (Clean p)) as [q|]; [|reflexivity].
  destruct (always_there q); [reflexivity|]. destruct (fs !! q); reflexivity.
Qed.

Lemma Stat_none_has_error fs name err : Stat fs name = (None, err) -> err <> None.
Proof.
  unfold Stat. destruct (follow maxSymlinks fs (Clean name)) as [q|];
    [|intros H; injection H as <-; discriminate].
  destruct (always_there q); [discriminate|].
  destruct (fs !! q); [discriminate|]. intros H. injection H as <-. discriminate.
Qed.

Lemma follow_not_link n fs p :
  match fs !! p with Some (LinkNode _) => False | _ => True end ->
  follow n fs p = Some p.
Proof. destruct n; cbn [follow]; destruct (fs !! p) as [[m|m c|t]|]; intros H; try reflexivity; contradiction. Qed.

(** After a successful [MkdirAll] the path is a directory. *)
Lemma MkdirAll_success_is_dir fs path perm fs' :
  always_there (Clean path) = false ->
  MkdirAll fs path perm = (fs', None) ->
  is_dir (Stat fs' path) = true.
Proof.
  intros Hat. unfold MkdirAll. rewrite Hat.
  destruct (ancestors_last_clean _ Hat) as [above ->].
  rewrite fold_left_app. cbn [fold_left].
  destruct (fold_left (mkdir_step path perm) above (fs, None)) as [fsA [eA|]];
    [rewrite mkdir_step_error; discriminate|].
  unfold mkdir_step.
  destruct (Stat fsA (Clean path)) as [[[m|m c|t]|] err] eqn:S; try discriminate.
  - intros H. injection H as <-.
    rewrite <- is_dir_Stat_clean, S.
    destruct (Stat_error_no_node _ _ _ S) as [E|E]; simpl in E;
      [rewrite E; reflexivity | discriminate E].
  - destruct (IsNotExist err);
      [|intros H; injection H as _ ->; exfalso; exact (Stat_none_has_error _ _ _ S eq_refl)].
    destruct (fsA !! Clean path) eqn:L; [discriminate|].
    intros H. injection H as <-. unfold Stat.
    rewrite follow_not_link by (rewrite lookup_insert_eq; exact I).
    rewrite Hat, lookup_insert_eq. reflexivity.
Qed.

(** X23: when [ensureDirectories] returns no error, the install root
    and the bin directory are directories afterwards; and whatever it
    returns, it has changed or removed no node that was there: it only
    added directories with mode 0755. *)
Theorem ensureDirectories_makes_both i fs fs' e :
  always_there (Clean (InstallDir i)) = false ->
  always_there (Clean (BinDir i)) = false ->
  ensureDirectories i fs = (fs', e) ->
  (e = None ->
   is_dir (Stat fs' (InstallDir i)) = true /\ is_dir (Stat fs' (BinDir i)) = true)
  /\ (forall k, fs' !! k = fs !! k \/ (fs !! k = None /\ fs' !! k = Some (DirNode 493))).
Proof.
  intros H1 H2. unfold ensureDirectories.
  destruct (MkdirAll fs (InstallDir i) 493) as [fs1 [e1|]] eqn:M1.
  { intros H. injection H as <- <-. split; [discriminate|]. exact (MkdirAll_adds _ _ _ _ _ M1). }
  destruct (MkdirAll fs1 (BinDir i) 493) as [fs2 [e2|]] eqn:M2.
  - intros H. injection H as <- <-. split; [discriminate|].
    intros k. destruct (MkdirAll_adds _ _ _ _ _ M1 k) as [A|[A1 A2]];
      destruct (MkdirAll_adds _ _ _ _ _ M2 k) as [B|[B1 B2]].
    + left. congruence.
    + right. split; congruence.
    + right. split; congruence.
    + congruence.
  - intros H. injection H as <- <-. split.
    + intros _. split.
      * apply (Stat_adds 493 fs1 fs2); [exact (MkdirAll_adds _ _ _ _ _ M2)|].
        exact (MkdirAll_success_is_dir _ _ _ _ H1 M1).
      * exact (MkdirAll_success_is_dir _ _ _ _ H2 M2).
    + intros k. destruct (MkdirAll_adds _ _ _ _ _ M1 k) as [A|[A1 A2]];
        destruct (MkdirAll_adds _ _ _ _ _ M2 k) as [B|[B1 B2]].
      * left. congruence.
      * right. split; congruence.
      * right. split; congruence.
      * congruence.
Qed.

Lemma ensureDirectories_makes_both_witness :
  always_there (Clean (InstallDir userInstaller)) = false
  /\ always_there (Clean (BinDir userInstaller)) = false
  /\ is_dir (Stat (fst (ensureDirectories userInstaller ∅)) (InstallDir userInstaller)) = true
  /\ is_dir (Stat (fst (ensureDirectories userInstaller ∅)) (BinDir userInstaller)) = true.
Proof.
  split; [reflexivity|]. split; [reflexivity|].
  destruct (ensureDirectories userInstaller ∅) as [fs' e] eqn:R.
  assert (He : e = None) by (apply (f_equal snd) in R; vm_compute in R; congruence).
  exact (proj1 (ensureDirectories_makes_both userInstaller ∅ fs' e eq_refl eq_refl R) He).
Defined.

(** ** The whole installation *)

(** X24: when [Install] returns no error, the bin directory has the
    links [go] and [gofmt], and they lead to [go/bin/go] and
    [go/bin/gofmt] under the install root. *)
Theorem Install_success_leaves_links i ctxDone tarball fs fs' :
  Install i ctxDone tarball fs = (fs', None) ->
  fs' !! Join [BinDir i; "go"]
  = Some (LinkNode (Join [InstallDir i; "go"; "bin"; "go"]))
  /\ fs' !! Join [BinDir i; "gofmt"]
     = Some (LinkNode (Join [InstallDir i; "go"; "bin"; "gofmt"])).
Proof.
  unfold Install.
  destruct (ensureDirectories i fs) as [fs1 [e|]]; [discriminate|].
  destruct (removeExisting i fs1) as [fs2 [e|]]; [discriminate|].
  destruct (extractTarball i ctxDone tarball fs2) as [fs3 [e|]]; [discriminate|].
  destruct (createSymlinks i fs3) as [fs4 [e|]] eqn:C; [discriminate|].
  intros H. injection H as <-.
  destruct (createSymlinks_success_inv _ _ _ C) as (_ & _ & Hne & ->).
  split.
  - rewrite lookup_insert_ne by (intros E; apply Hne; symmetry; exact E).
    apply lookup_insert_eq.
  - apply lookup_insert_eq.
Qed.

Lemma Install_success_leaves_links_witness :
  snd (Install userInstaller neverDone (TarStream [versionEntry; goBinaryEntry] None) ∅) = None
  /\ fst (Install userInstaller neverDone (TarStream [versionEntry; goBinaryEntry] None) ∅)
       !! Join [BinDir userInstaller; "go"]
     = Some (LinkNode "/home/u/.local/lib/go/bin/go").
Proof.
  split; [vm_compute; reflexivity|].
  destruct (Install userInstaller neverDone (TarStream [versionEntry; goBinaryEntry] None) ∅)
    as [fs' e] eqn:R.
  assert (He : e = None) by (apply (f_equal snd) in R; vm_compute in R; congruence).
  subst e.
  exact (proj1 (Install_success_leaves_links userInstaller neverDone _ ∅ fs' R)).
Defined.

(** X25: a running toolchain whose version has fewer than three
    dot-separated elements, such as the release candidate [go1.24rc1], is
    never updated: once the latest version is resolved, [app] stops after
    the comparison with the format error and downloads nothing. *)
Theorem app_stops_on_short_installed_version jsonDecode Sum256 readTarball w :
  GetInstalledVersion (runtimeVersion w) <> "" ->
  (length (Split (GetInstalledVersion (runtimeVersion w)) ".") < 3)%nat ->
  snd (latestAnswer jsonDecode w) = None ->
  app jsonDecode Sum256 readTarball w
  = (firstn 3 pipeline,
     Returned (Some (ErrWrap "failed to check if update is needed: "
                       (ErrNew "invalid version format: versions must be in the format X.Y.Z")))).
Proof.
  intros Hne Hlen. unfold latestAnswer, app.
  destruct (GetLatestVersion jsonDecode (feedReqErr w) (ctxErr w) (feedAttempts w) [])
    as [[lv [e|]] lg]; [discriminate|].
  intros _. rewrite (NeedsUpdate_too_short _ lv Hne (or_introl Hlen)). reflexivity.
Qed.

Lemma app_stops_on_short_installed_version_witness :
  GetInstalledVersion (runtimeVersion candidateWorld) = "1.24rc1"
  /\ (length (Split "1.24rc1" ".") < 3)%nat
  /\ app exampleDecode toySum (fun _ => TarStream [] None) candidateWorld
     = ([CallGetInstalledVersion; CallGetLatestVersion; CallNeedsUpdate],
        Returned (Some (ErrWrap "failed to check if update is needed: "
                          (ErrNew "invalid version format: versions must be in the format X.Y.Z")))).
Proof.
  split; [reflexivity|]. split; [simpl; lia|].
  exact (app_stops_on_short_installed_version exampleDecode toySum
           (fun _ => TarStream [] None) candidateWorld
           ltac:(discriminate) ltac:(simpl; lia) eq_refl).
Defined.
